(** * BinanceDataStreamer: counting, logging and forwarding of market data

    A shallow embedding of [src/binance_streamer.py].  The actor object is a
    record of its fields; the framework it talks to (the logger, the
    subscription API of the actor base class, the Parquet catalog, the
    identifier parsers and the clock) is a [Host] whose answers may depend on
    everything that happened before.  A method is a computation that reads
    that history, updates the actor, emits effects and either returns or
    raises. *)

From Stdlib Require Import ZArith List Ascii String Bool Lia.
Import ListNotations.
Local Open Scope string_scope.
Local Open Scope list_scope.
Local Open Scope Z_scope.

(** ** Values of the framework *)

(** A Python exception, by its message. *)
Definition Exn := string.

(** [nautilus_trader.model.enums.BookType]. *)
Inductive BookType := L1_MBP | L2_MBP | L3_MBO.

(** [nautilus_trader.persistence.catalog.types.CatalogWriteMode]. *)
Inductive CatalogWriteMode := APPEND | PREPEND | OVERWRITE | NEWFILE.

(** An [InstrumentId], identified by its printed form. *)
Record InstrumentId := MkInstrumentId { instrument_str : string }.

(** A [BarType]; [bar_type_str] is what [str(bar_type)] gives. *)
Record BarType := MkBarType { bar_type_str : string }.

(** Prices and quantities only reach the log messages. *)
Definition Price := Z.
Definition Quantity := Z.

Record Instrument := { id : InstrumentId }.

Record QuoteTick :=
  { quote_instrument_id : InstrumentId; bid_price : Price; ask_price : Price }.

Record TradeTick :=
  { trade_instrument_id : InstrumentId; price : Price; size : Quantity }.

Record OrderBookDeltas := { deltas_instrument_id : InstrumentId }.

Record Bar :=
  { bar_type : BarType;
    open : Price; high : Price; low : Price; close : Price;
    volume : Quantity }.

(** What the feed delivers and what [write_data] receives. *)
Inductive Data :=
| DInstrument (i : Instrument)
| DQuote (t : QuoteTick)
| DTrade (t : TradeTick)
| DDeltas (d : OrderBookDeltas)
| DBar (b : Bar).

(** An element of [list_data_types()]: a class, which has a [__name__], or
    anything else, which is printed with [str]. *)
Inductive DataType :=
| Class (name : string)
| Other (repr : string).

Definition type_name (d : DataType) : string :=
  match d with
  | Class name => name
  | Other repr => repr
  end.

(** ** Python dictionaries with string keys

    Insertion order is kept: [items] lists the keys in the order they were
    first assigned, and assigning to an existing key keeps its place. *)

Module Dict.

Definition t (V : Type) := list (string * V).

Definition empty {V} : t V := [].

Fixpoint get {V} (d : t V) (k : string) : option V :=
  match d with
  | [] => None
  | (k', v) :: d' => if String.eqb k' k then Some v else get d' k
  end.

(** [d.get(k, default)] *)
Definition get_default {V} (d : t V) (k : string) (default : V) : V :=
  match get d k with
  | Some v => v
  | None => default
  end.

(** [d[k] = v] *)
Fixpoint set {V} (d : t V) (k : string) (v : V) : t V :=
  match d with
  | [] => [(k, v)]
  | (k', v') :: d' =>
      if String.eqb k' k then (k', v) :: d' else (k', v') :: set d' k v
  end.

(** [d.items()] *)
Definition items {V} (d : t V) : list (string * V) := d.

End Dict.

(** ** The actor *)

Record BinanceDataStreamerConfig :=
  { cfg_instrument_ids : list string;
    cfg_bar_types : list string;
    catalog_path : string }.

Record BinanceDataStreamer :=
  { config : BinanceDataStreamerConfig;
    quote_count : Z;
    trade_count : Z;
    deltas_count : Z;
    book_count : Z;
    book_type : BookType;
    _book : list OrderBookDeltas;
    bar_counts : Dict.t Z;
    bar_types : list BarType;
    instrument_ids : list InstrumentId }.

Definition Actor := BinanceDataStreamer.

(** Field assignments [self.f = v]. *)
Definition set_quote_count (v : Z) (a : Actor) : Actor :=
  {| config := config a; quote_count := v; trade_count := trade_count a;
     deltas_count := deltas_count a; book_count := book_count a;
     book_type := book_type a; _book := _book a; bar_counts := bar_counts a;
     bar_types := bar_types a; instrument_ids := instrument_ids a |}.

Definition set_trade_count (v : Z) (a : Actor) : Actor :=
  {| config := config a; quote_count := quote_count a; trade_count := v;
     deltas_count := deltas_count a; book_count := book_count a;
     book_type := book_type a; _book := _book a; bar_counts := bar_counts a;
     bar_types := bar_types a; instrument_ids := instrument_ids a |}.

Definition set_deltas_count (v : Z) (a : Actor) : Actor :=
  {| config := config a; quote_count := quote_count a;
     trade_count := trade_count a; deltas_count := v;
     book_count := book_count a; book_type := book_type a; _book := _book a;
     bar_counts := bar_counts a; bar_types := bar_types a;
     instrument_ids := instrument_ids a |}.

Definition set_book_count (v : Z) (a : Actor) : Actor :=
  {| config := config a; quote_count := quote_count a;
     trade_count := trade_count a; deltas_count := deltas_count a;
     book_count := v; book_type := book_type a; _book := _book a;
     bar_counts := bar_counts a; bar_types := bar_types a;
     instrument_ids := instrument_ids a |}.

Definition set_book_type (v : BookType) (a : Actor) : Actor :=
  {| config := config a; quote_count := quote_count a;
     trade_count := trade_count a; deltas_count := deltas_count a;
     book_count := book_count a; book_type := v; _book := _book a;
     bar_counts := bar_counts a; bar_types := bar_types a;
     instrument_ids := instrument_ids a |}.

Definition set__book (v : list OrderBookDeltas) (a : Actor) : Actor :=
  {| config := config a; quote_count := quote_count a;
     trade_count := trade_count a; deltas_count := deltas_count a;
     book_count := book_count a; book_type := book_type a; _book := v;
     bar_counts := bar_counts a; bar_types := bar_types a;
     instrument_ids := instrument_ids a |}.

Definition set_bar_counts (v : Dict.t Z) (a : Actor) : Actor :=
  {| config := config a; quote_count := quote_count a;
     trade_count := trade_count a; deltas_count := deltas_count a;
     book_count := book_count a; book_type := book_type a; _book := _book a;
     bar_counts := v; bar_types := bar_types a;
     instrument_ids := instrument_ids a |}.

Definition set_bar_types (v : list BarType) (a : Actor) : Actor :=
  {| config := config a; quote_count := quote_count a;
     trade_count := trade_count a; deltas_count := deltas_count a;
     book_count := book_count a; book_type := book_type a; _book := _book a;
     bar_counts := bar_counts a; bar_types := v;
     instrument_ids := instrument_ids a |}.

Definition set_instrument_ids (v : list InstrumentId) (a : Actor) : Actor :=
  {| config := config a; quote_count := quote_count a;
     trade_count := trade_count a; deltas_count := deltas_count a;
     book_count := book_count a; book_type := book_type a; _book := _book a;
     bar_counts := bar_counts a; bar_types := bar_types a;
     instrument_ids := v |}.

(** ** Effects *)

(** Calls into the framework that may raise. *)
Inductive Call :=
| makedirs (path : string)
| ParquetDataCatalog (path : string)
| subscribe_instrument (instrument_id : InstrumentId)
| subscribe_quote_ticks (instrument_id : InstrumentId)
| subscribe_trade_ticks (instrument_id : InstrumentId)
| subscribe_order_book_deltas
    (instrument_id : InstrumentId) (book_type : BookType) (depth : Z)
| subscribe_bars (bar_type : BarType)
| unsubscribe_quote_ticks (instrument_id : InstrumentId)
| unsubscribe_trade_ticks (instrument_id : InstrumentId)
| unsubscribe_order_book_deltas
    (instrument_id : InstrumentId) (book_type : BookType)
| unsubscribe_bars (bar_type : BarType)
| write_data (data : list Data) (mode : option CatalogWriteMode)
| list_data_types.

Inductive LogLevel := INFO | ERROR.

(** The colour of a log call; [NORMAL] is a call without colour argument. *)
Inductive LogColor := NORMAL | YELLOW | MAGENTA.

(** One constructor per message template of the source, carrying the values
    that the f-string interpolates. *)
Inductive Message :=
| MsgBarTypeParseError (bar_type_str : string) (e : Exn)
| MsgInstrumentParseError (instrument_id_str : string) (e : Exn)
| MsgStarting (catalog_path : string)
| MsgSubscribedQuotes (instrument_id : InstrumentId)
| MsgSubscribedTrades (instrument_id : InstrumentId)
| MsgSubscribedBook (instrument_id : InstrumentId)
| MsgSubscribedBars (bar_type : BarType)
| MsgInstrument (instrument_id : InstrumentId)
| MsgQuote (n : Z) (instrument_id : InstrumentId) (bid ask : Price)
| MsgTrade (n : Z) (instrument_id : InstrumentId) (p : Price) (q : Quantity)
| MsgDeltas (n : Z) (instrument_id : InstrumentId)
| MsgBar (n : Z) (bar_type_str : string) (o h l c : Price) (v : Quantity)
| MsgStatusHeader (now : Z)
| MsgStatusQuotes (n : Z)
| MsgStatusTrades (n : Z)
| MsgStatusBars (bar_type_str : string) (n : Z)
| MsgCatalogTypes (data_types : list DataType)
| MsgCatalogType (type_name : string)
| MsgCatalogError (e : Exn)
| MsgStopping
| MsgFlushed (catalog_path : string)
| MsgFlushError (e : Exn)
| MsgStopped.

Inductive Effect :=
| Log (level : LogLevel) (color : LogColor) (msg : Message)
| Called (c : Call).

Definition History := list Effect.

(** The framework.  Every answer may depend on the effects so far. *)
Record Host :=
  { BarType_from_str : string -> Exn + BarType;
    InstrumentId_from_str : string -> Exn + InstrumentId;
    raises : History -> Call -> option Exn;
    data_types_listed : History -> list DataType;
    datetime_now : History -> Z }.

(** ** Computations *)

Inductive Outcome (A : Type) :=
| Returned (x : A)
| Raised (e : Exn).
Arguments Returned {A} x.
Arguments Raised {A} e.

(** A method body: from the host, the effects so far and the actor, to an
    outcome, the actor as the body left it and the effects the body emitted.
    Assignments made before a raise stay. *)
Definition M (A : Type) : Type :=
  Host -> History -> Actor -> Outcome A * Actor * list Effect.

Definition ret {A} (x : A) : M A := fun _ _ a => (Returned x, a, []).

Definition bind {A B} (m : M A) (f : A -> M B) : M B :=
  fun host h a =>
    match m host h a with
    | (Returned x, a1, es1) =>
        let '(o, a2, es2) := f x host (h ++ es1) a1 in (o, a2, es1 ++ es2)
    | (Raised e, a1, es1) => (Raised e, a1, es1)
    end.

Notation "x <- m ;; k" := (bind m (fun x => k))
  (at level 61, m at next level, right associativity).
Notation "m ;; k" := (bind m (fun _ => k))
  (at level 61, right associativity).

Definition raise {A} (e : Exn) : M A := fun _ _ a => (Raised e, a, []).

(** [try: body except Exception as e: handler e] *)
Definition try_except {A} (body : M A) (handler : Exn -> M A) : M A :=
  fun host h a =>
    match body host h a with
    | (Returned x, a1, es1) => (Returned x, a1, es1)
    | (Raised e, a1, es1) =>
        let '(o, a2, es2) := handler e host (h ++ es1) a1 in
        (o, a2, es1 ++ es2)
    end.

Definition self : M Actor := fun _ _ a => (Returned a, a, []).

Definition assign (f : Actor -> Actor) : M unit :=
  fun _ _ a => (Returned tt, f a, []).

Definition emit (e : Effect) : M unit := fun _ _ a => (Returned tt, a, [e]).

Definition log_info (msg : Message) : M unit := emit (Log INFO NORMAL msg).
Definition log_info_color (msg : Message) (c : LogColor) : M unit :=
  emit (Log INFO c msg).
Definition log_error (msg : Message) : M unit := emit (Log ERROR NORMAL msg).

(** A call is recorded, then the host decides whether it raises. *)
Definition call (c : Call) : M unit :=
  fun host h a =>
    match raises host h c with
    | None => (Returned tt, a, [Called c])
    | Some e => (Raised e, a, [Called c])
    end.

(** A parser of the framework: returns the handle or raises. *)
Definition parse {A} (p : Host -> string -> Exn + A) (s : string) : M A :=
  fun host _ a =>
    match p host s with
    | inr x => (Returned x, a, [])
    | inl e => (Raised e, a, [])
    end.

Definition ask {A} (q : Host -> History -> A) : M A :=
  fun host h a => (Returned (q host h), a, []).

(** [for x in xs: body x] *)
Fixpoint for_each {A} (xs : list A) (body : A -> M unit) : M unit :=
  match xs with
  | [] => ret tt
  | x :: xs' => body x ;; for_each xs' body
  end.

(** [d[k]], which raises [KeyError] on a missing key. *)
Definition getitem (d : Dict.t Z) (k : string) : M Z :=
  match Dict.get d k with
  | Some v => ret v
  | None => raise ("KeyError: " ++ k)%string
  end.

Definition when (b : bool) (m : M unit) : M unit := if b then m else ret tt.

(** ** The methods of [BinanceDataStreamer] *)

(** The object as [super().__init__(config=config)] leaves it: the
    configuration is stored, the fields of the subclass get their values in
    [__init__] below. *)
Definition new_actor (cfg : BinanceDataStreamerConfig) : Actor :=
  {| config := cfg; quote_count := 0; trade_count := 0; deltas_count := 0;
     book_count := 0; book_type := L1_MBP; _book := [];
     bar_counts := Dict.empty; bar_types := []; instrument_ids := [] |}.

(** The loop of [__init__] over [config.bar_types]. *)
Definition resolve_bar_types (raw : list string) : M unit :=
  for_each raw (fun bar_type_str =>
    try_except
      (bt <- parse BarType_from_str bar_type_str ;;
       assign (fun a => set_bar_types (bar_types a ++ [bt]) a) ;;
       assign (fun a =>
                 set_bar_counts (Dict.set (bar_counts a) bar_type_str 0) a))
      (fun e => log_error (MsgBarTypeParseError bar_type_str e))).

(** The loop of [__init__] over [config.instrument_ids]. *)
Definition resolve_instrument_ids (raw : list string) : M unit :=
  for_each raw (fun instrument_id_str =>
    try_except
      (i <- parse InstrumentId_from_str instrument_id_str ;;
       assign (fun a => set_instrument_ids (instrument_ids a ++ [i]) a))
      (fun e => log_error (MsgInstrumentParseError instrument_id_str e))).

Definition __init__ : M unit :=
  a <- self ;;
  call (makedirs (catalog_path (config a))) ;;
  call (ParquetDataCatalog (catalog_path (config a))) ;;
  assign (set_quote_count 0) ;;
  assign (set_trade_count 0) ;;
  assign (set_deltas_count 0) ;;
  assign (set_book_count 0) ;;
  assign (set_book_type L2_MBP) ;;
  assign (set__book []) ;;
  assign (set_bar_counts Dict.empty) ;;
  assign (set_bar_types []) ;;
  resolve_bar_types (cfg_bar_types (config a)) ;;
  assign (set_instrument_ids []) ;;
  resolve_instrument_ids (cfg_instrument_ids (config a)).

Definition on_start : M unit :=
  a <- self ;;
  log_info (MsgStarting (catalog_path (config a))) ;;
  for_each (instrument_ids a) (fun instrument_id =>
    call (subscribe_instrument instrument_id) ;;
    call (subscribe_quote_ticks instrument_id) ;;
    log_info (MsgSubscribedQuotes instrument_id) ;;
    call (subscribe_trade_ticks instrument_id) ;;
    log_info (MsgSubscribedTrades instrument_id) ;;
    b <- self ;;
    call (subscribe_order_book_deltas instrument_id (book_type b) 0) ;;
    log_info (MsgSubscribedBook instrument_id)) ;;
  a <- self ;;
  for_each (bar_types a) (fun bar_type =>
    call (subscribe_bars bar_type) ;;
    log_info (MsgSubscribedBars bar_type)).

Definition on_instrument (instrument : Instrument) : M unit :=
  log_info (MsgInstrument (id instrument)) ;;
  call (write_data [DInstrument instrument] None).

Definition on_quote_tick (tick : QuoteTick) : M unit :=
  assign (fun a => set_quote_count (quote_count a + 1) a) ;;
  a <- self ;;
  when (quote_count a mod 100 =? 0)
    (log_info (MsgQuote (quote_count a) (quote_instrument_id tick)
                 (bid_price tick) (ask_price tick))) ;;
  call (write_data [DQuote tick] (Some APPEND)).

Definition on_trade_tick (tick : TradeTick) : M unit :=
  assign (fun a => set_trade_count (trade_count a + 1) a) ;;
  a <- self ;;
  when (trade_count a mod 10 =? 0)
    (log_info (MsgTrade (trade_count a) (trade_instrument_id tick)
                 (price tick) (size tick))) ;;
  call (write_data [DTrade tick] (Some APPEND)).

Definition on_order_book_deltas (deltas : OrderBookDeltas) : M unit :=
  assign (fun a => set_deltas_count (deltas_count a + 1) a) ;;
  a <- self ;;
  when (deltas_count a mod 100 =? 0)
    (log_info (MsgDeltas (deltas_count a) (deltas_instrument_id deltas))) ;;
  call (write_data [DDeltas deltas] (Some APPEND)).

Definition on_bar (bar : Bar) : M unit :=
  let bar_type_str := bar_type_str (bar_type bar) in
  assign (fun a =>
            set_bar_counts
              (Dict.set (bar_counts a) bar_type_str
                 (Dict.get_default (bar_counts a) bar_type_str 0 + 1)) a) ;;
  a <- self ;;
  n <- getitem (bar_counts a) bar_type_str ;;
  log_info (MsgBar n bar_type_str (open bar) (high bar) (low bar) (close bar)
              (volume bar)) ;;
  call (write_data [DBar bar] (Some APPEND)).

Definition _log_status : M unit :=
  now <- ask datetime_now ;;
  log_info_color (MsgStatusHeader now) YELLOW ;;
  a <- self ;;
  log_info_color (MsgStatusQuotes (quote_count a)) YELLOW ;;
  a <- self ;;
  log_info_color (MsgStatusTrades (trade_count a)) YELLOW ;;
  a <- self ;;
  for_each (Dict.items (bar_counts a)) (fun '(bar_type_str, count) =>
    log_info_color (MsgStatusBars bar_type_str count) YELLOW) ;;
  try_except
    (call list_data_types ;;
     data_types <- ask data_types_listed ;;
     log_info_color (MsgCatalogTypes data_types) MAGENTA ;;
     for_each data_types (fun data_type =>
       log_info_color (MsgCatalogType (type_name data_type)) MAGENTA))
    (fun e => log_error (MsgCatalogError e)).

Definition on_stop : M unit :=
  log_info MsgStopping ;;
  a <- self ;;
  for_each (instrument_ids a) (fun instrument_id =>
    call (unsubscribe_quote_ticks instrument_id) ;;
    call (unsubscribe_trade_ticks instrument_id) ;;
    b <- self ;;
    call (unsubscribe_order_book_deltas instrument_id (book_type b))) ;;
  a <- self ;;
  for_each (bar_types a) (fun bar_type => call (unsubscribe_bars bar_type)) ;;
  try_except
    (a <- self ;; log_info (MsgFlushed (catalog_path (config a))))
    (fun e => log_error (MsgFlushError e)) ;;
  log_info MsgStopped.

(** ** The feed *)

(** The framework hands each datum to the callback of its type. *)
Definition deliver (d : Data) : M unit :=
  match d with
  | DInstrument i => on_instrument i
  | DQuote t => on_quote_tick t
  | DTrade t => on_trade_tick t
  | DDeltas ds => on_order_book_deltas ds
  | DBar b => on_bar b
  end.

(** The feed delivers the data one after the other.  Each delivery has its
    own outcome; the actor and the history go on from where the callback
    left them, also when it raised. *)
Fixpoint feed (ds : list Data) (host : Host) (h : History) (a : Actor)
  : list (Outcome unit) * Actor * list Effect :=
  match ds with
  | [] => ([], a, [])
  | d :: ds' =>
      let '(o, a1, es1) := deliver d host h a in
      let '(os, a2, es2) := feed ds' host (h ++ es1) a1 in
      (o :: os, a2, es1 ++ es2)
  end.

(** * Vocabulary of the statements *)

(** ** Reading results and effects *)

Definition outcome_of {A} (r : A * Actor * list Effect) : A := fst (fst r).
Definition actor_of {A} (r : A * Actor * list Effect) : Actor := snd (fst r).
Definition effects_of {A} (r : A * Actor * list Effect) : list Effect := snd r.

(** The calls among some effects, in order. *)
Definition calls (es : list Effect) : list Call :=
  flat_map (fun e => match e with Called c => [c] | Log _ _ _ => [] end) es.

(** The log messages among some effects, in order. *)
Definition messages (es : list Effect) : list Message :=
  flat_map (fun e => match e with Log _ _ m => [m] | Called _ => [] end) es.

(** The [write_data] calls among some effects: batch and mode. *)
Definition writes (es : list Effect)
  : list (list Data * option CatalogWriteMode) :=
  flat_map (fun c => match c with write_data d m => [(d, m)] | _ => [] end)
    (calls es).

(** The counts printed by the sampled quote and trade messages. *)
Definition quote_samples (es : list Effect) : list Z :=
  flat_map (fun m => match m with MsgQuote n _ _ _ => [n] | _ => [] end)
    (messages es).

Definition trade_samples (es : list Effect) : list Z :=
  flat_map (fun m => match m with MsgTrade n _ _ _ => [n] | _ => [] end)
    (messages es).

(** ** Identifier resolution, as a stable filter *)

(** The handles of the entries that parse, in input order. *)
Definition resolved {A} (p : string -> Exn + A) (raw : list string) : list A :=
  flat_map (fun s => match p s with inr x => [x] | inl _ => [] end) raw.

(** The entries that parse, in input order. *)
Definition accepted {A} (p : string -> Exn + A) (raw : list string)
  : list string :=
  filter (fun s => match p s with inr _ => true | inl _ => false end) raw.

(** The entries that do not parse, each with its error, in input order. *)
Definition skipped {A} (p : string -> Exn + A) (raw : list string)
  : list (string * Exn) :=
  flat_map (fun s => match p s with inr _ => [] | inl e => [(s, e)] end) raw.

(** The entries of [bar_counts] that construction sets to zero. *)
Definition zeroed (keys : list string) (d : Dict.t Z) : Dict.t Z :=
  fold_left (fun d k => Dict.set d k 0) keys d.

(** ** Subscribing and unsubscribing *)

Definition is_subscribe (c : Call) : bool :=
  match c with
  | subscribe_instrument _ | subscribe_quote_ticks _
  | subscribe_trade_ticks _ | subscribe_order_book_deltas _ _ _
  | subscribe_bars _ => true
  | _ => false
  end.

Definition is_unsubscribe (c : Call) : bool :=
  match c with
  | unsubscribe_quote_ticks _ | unsubscribe_trade_ticks _
  | unsubscribe_order_book_deltas _ _ | unsubscribe_bars _ => true
  | _ => false
  end.

Definition is_write (c : Call) : bool :=
  match c with
  | write_data _ _ => true
  | _ => false
  end.

(** The host raises on no call of the given kind, whatever came before. *)
Definition never_raises (host : Host) (kind : Call -> bool) : Prop :=
  forall h c, kind c = true -> raises host h c = None.

(** What [on_start] emits for one instrument and for one bar type when
    nothing raises. *)
Definition start_instrument (bt : BookType) (i : InstrumentId) : list Effect :=
  [ Called (subscribe_instrument i);
    Called (subscribe_quote_ticks i);
    Log INFO NORMAL (MsgSubscribedQuotes i);
    Called (subscribe_trade_ticks i);
    Log INFO NORMAL (MsgSubscribedTrades i);
    Called (subscribe_order_book_deltas i bt 0);
    Log INFO NORMAL (MsgSubscribedBook i) ].

Definition start_bar_type (b : BarType) : list Effect :=
  [ Called (subscribe_bars b); Log INFO NORMAL (MsgSubscribedBars b) ].

(** What [on_stop] emits for one instrument and for one bar type when
    nothing raises. *)
Definition stop_instrument (bt : BookType) (i : InstrumentId) : list Effect :=
  [ Called (unsubscribe_quote_ticks i);
    Called (unsubscribe_trade_ticks i);
    Called (unsubscribe_order_book_deltas i bt) ].

Definition stop_bar_type (b : BarType) : list Effect :=
  [ Called (unsubscribe_bars b) ].

(** Everything [on_start] sets out to do, in order. *)
Definition start_script (a : Actor) : list Effect :=
  Log INFO NORMAL (MsgStarting (catalog_path (config a)))
  :: flat_map (start_instrument (book_type a)) (instrument_ids a)
  ++ flat_map start_bar_type (bar_types a).

(** Everything [on_stop] sets out to do, in order. *)
Definition stop_script (a : Actor) : list Effect :=
  Log INFO NORMAL MsgStopping
  :: flat_map (stop_instrument (book_type a)) (instrument_ids a)
  ++ flat_map stop_bar_type (bar_types a)
  ++ [ Log INFO NORMAL (MsgFlushed (catalog_path (config a)));
       Log INFO NORMAL MsgStopped ].

(** Working through a script: a message is logged, a call is made, and a
    call that raises ends the work. *)
Fixpoint perform (es : list Effect) : M unit :=
  match es with
  | [] => ret tt
  | Called c :: es' => call c ;; perform es'
  | e :: es' => emit e ;; perform es'
  end.

(** The subscribe calls of a roster, in the order [on_start] issues them. *)
Definition subscriptions (bt : BookType) (ids : list InstrumentId)
  (bs : list BarType) : list Call :=
  flat_map (fun i => [ subscribe_instrument i; subscribe_quote_ticks i;
                       subscribe_trade_ticks i;
                       subscribe_order_book_deltas i bt 0 ]) ids
  ++ map subscribe_bars bs.

(** The unsubscribe calls of a roster, in the order [on_stop] issues them. *)
Definition unsubscriptions (bt : BookType) (ids : list InstrumentId)
  (bs : list BarType) : list Call :=
  flat_map (fun i => [ unsubscribe_quote_ticks i; unsubscribe_trade_ticks i;
                       unsubscribe_order_book_deltas i bt ]) ids
  ++ map unsubscribe_bars bs.

(** *** The unsubscription of l.258, as the framework receives it

    [on_start] names every argument.  [on_stop] passes its arguments by
    position, and the actor base class declares
    [unsubscribe_order_book_deltas(instrument_id, client_id=None,
    params=None)]: the book type that l.258 passes second arrives as the
    client id. *)
Definition book_type_as_client_id (c : Call) : bool :=
  match c with
  | unsubscribe_order_book_deltas _ _ => true
  | _ => false
  end.

(** A host that checks the type of the client id, as the framework does:
    it raises on such a call, whatever came before. *)
Definition checks_client_id (host : Host) : Prop :=
  forall h c, book_type_as_client_id c = true -> raises host h c <> None.

(** The unsubscribe calls of [on_stop] whose arguments fit the signature. *)
Definition is_fitting_unsubscribe (c : Call) : bool :=
  is_unsubscribe c && negb (book_type_as_client_id c).

(** ** One delivery *)

(** The counter update a datum causes. *)
Definition counted (d : Data) (a : Actor) : Actor :=
  match d with
  | DInstrument _ => a
  | DQuote _ => set_quote_count (quote_count a + 1) a
  | DTrade _ => set_trade_count (trade_count a + 1) a
  | DDeltas _ => set_deltas_count (deltas_count a + 1) a
  | DBar b =>
      let k := bar_type_str (bar_type b) in
      set_bar_counts
        (Dict.set (bar_counts a) k (Dict.get_default (bar_counts a) k 0 + 1)) a
  end.

(** The message a datum causes, if any, in an actor that has counted it. *)
Definition announced (d : Data) (a : Actor) : list Effect :=
  match d with
  | DInstrument i => [Log INFO NORMAL (MsgInstrument (id i))]
  | DQuote t =>
      if quote_count a mod 100 =? 0
      then [Log INFO NORMAL (MsgQuote (quote_count a) (quote_instrument_id t)
                               (bid_price t) (ask_price t))]
      else []
  | DTrade t =>
      if trade_count a mod 10 =? 0
      then [Log INFO NORMAL (MsgTrade (trade_count a) (trade_instrument_id t)
                               (price t) (size t))]
      else []
  | DDeltas ds =>
      if deltas_count a mod 100 =? 0
      then [Log INFO NORMAL (MsgDeltas (deltas_count a)
                               (deltas_instrument_id ds))]
      else []
  | DBar b =>
      let k := bar_type_str (bar_type b) in
      [Log INFO NORMAL (MsgBar (Dict.get_default (bar_counts a) k 0) k
                          (open b) (high b) (low b) (close b) (volume b))]
  end.

(** The write mode by category: nothing is passed for an instrument, so the
    catalog applies its default. *)
Definition mode_of (d : Data) : option CatalogWriteMode :=
  match d with
  | DInstrument _ => None
  | _ => Some APPEND
  end.

(** The outcome of a call, as the host decides it. *)
Definition answered (host : Host) (h : History) (c : Call) : Outcome unit :=
  match raises host h c with
  | None => Returned tt
  | Some e => Raised e
  end.

(** ** A whole feed *)

(** The actor after a feed: every datum counted, in order. *)
Definition fed (ds : list Data) (a : Actor) : Actor :=
  fold_left (fun a d => counted d a) ds a.

(** The effects of a feed: per datum its message, if any, and its write. *)
Fixpoint fed_effects (ds : list Data) (a : Actor) : list Effect :=
  match ds with
  | [] => []
  | d :: ds' =>
      (announced d (counted d a) ++ [Called (write_data [d] (mode_of d))])
      ++ fed_effects ds' (counted d a)
  end.

(** *** Counting the data of a feed *)

Definition is_quote (d : Data) : bool :=
  match d with DQuote _ => true | _ => false end.
Definition is_trade (d : Data) : bool :=
  match d with DTrade _ => true | _ => false end.
Definition is_deltas (d : Data) : bool :=
  match d with DDeltas _ => true | _ => false end.
Definition is_bar_of (k : string) (d : Data) : bool :=
  match d with
  | DBar b => String.eqb (bar_type_str (bar_type b)) k
  | _ => false
  end.

Definition number (p : Data -> bool) (ds : list Data) : Z :=
  Z.of_nat (List.length (filter p ds)).

(** The same, for the events of one instrument. *)
Definition is_quote_of (k : string) (d : Data) : bool :=
  match d with
  | DQuote t => String.eqb (instrument_str (quote_instrument_id t)) k
  | _ => false
  end.

Definition is_trade_of (k : string) (d : Data) : bool :=
  match d with
  | DTrade t => String.eqb (instrument_str (trade_instrument_id t)) k
  | _ => false
  end.

Definition is_deltas_of (k : string) (d : Data) : bool :=
  match d with
  | DDeltas x => String.eqb (instrument_str (deltas_instrument_id x)) k
  | _ => false
  end.

(** *** The sampled messages of a feed *)

(** [n] consecutive integers from [lo]. *)
Fixpoint Zrange (lo : Z) (n : nat) : list Z :=
  match n with
  | O => []
  | S n' => lo :: Zrange (lo + 1) n'
  end.

(** The multiples of [k] among [n] consecutive integers from [lo]. *)
Definition multiples (k lo : Z) (n : nat) : list Z :=
  filter (fun x => x mod k =? 0) (Zrange lo n).

(** ** Construction *)

(** The actor [__init__] builds when the directory and the catalog can be
    made. *)
Definition constructed (host : Host) (cfg : BinanceDataStreamerConfig)
  : Actor :=
  {| config := cfg; quote_count := 0; trade_count := 0; deltas_count := 0;
     book_count := 0; book_type := L2_MBP; _book := [];
     bar_counts :=
       zeroed (accepted (BarType_from_str host) (cfg_bar_types cfg)) Dict.empty;
     bar_types := resolved (BarType_from_str host) (cfg_bar_types cfg);
     instrument_ids :=
       resolved (InstrumentId_from_str host) (cfg_instrument_ids cfg) |}.

(** The error messages of construction: bar types first. *)
Definition init_errors (host : Host) (cfg : BinanceDataStreamerConfig)
  : list Effect :=
  map (fun se => Log ERROR NORMAL (MsgBarTypeParseError (fst se) (snd se)))
    (skipped (BarType_from_str host) (cfg_bar_types cfg))
  ++ map (fun se =>
            Log ERROR NORMAL (MsgInstrumentParseError (fst se) (snd se)))
       (skipped (InstrumentId_from_str host) (cfg_instrument_ids cfg)).

(** ** The status report *)

(** The counter lines of the report: quotes, trades, then one line per entry
    of [bar_counts] in insertion order. *)
Definition counter_lines (a : Actor) : list Effect :=
  Log INFO YELLOW (MsgStatusQuotes (quote_count a))
  :: Log INFO YELLOW (MsgStatusTrades (trade_count a))
  :: map (fun kv => Log INFO YELLOW (MsgStatusBars (fst kv) (snd kv)))
       (Dict.items (bar_counts a)).

(** What [list_data_types()] gives when it is called after history [h]. *)
Definition inventory (host : Host) (h : History) : Exn + list DataType :=
  match raises host h list_data_types with
  | Some e => inl e
  | None => inr (data_types_listed host (h ++ [Called list_data_types]))
  end.

(** The lines of the report that follow the inventory query. *)
Definition inventory_lines (answer : Exn + list DataType) : list Effect :=
  match answer with
  | inr data_types =>
      Log INFO MAGENTA (MsgCatalogTypes data_types)
      :: map (fun d => Log INFO MAGENTA (MsgCatalogType (type_name d)))
           data_types
  | inl e => [Log ERROR NORMAL (MsgCatalogError e)]
  end.

(** The report, from the time printed in the header, the actor and the
    answer of the catalog. *)
Definition report (now : Z) (a : Actor) (answer : Exn + list DataType)
  : list Effect :=
  Log INFO YELLOW (MsgStatusHeader now)
  :: counter_lines a
  ++ Called list_data_types :: inventory_lines answer.

(** The history at the moment [_log_status], started after [h], queries the
    catalog. *)
Definition query_moment (host : Host) (h : History) (a : Actor) : History :=
  h ++ Log INFO YELLOW (MsgStatusHeader (datetime_now host h))
       :: counter_lines a.

(** ** Hosts and data for the examples *)

Fixpoint has_char (c : ascii) (s : string) : bool :=
  match s with
  | EmptyString => false
  | String c' s' => if Ascii.eqb c' c then true else has_char c s'
  end.

(** Stand-ins for the framework's parsers: an instrument id reads
    SYMBOL.VENUE, a bar type has dash-separated parts. *)
Definition example_instrument_id (s : string) : Exn + InstrumentId :=
  if has_char "."%char s then inr (MkInstrumentId s)
  else inl ("missing venue: " ++ s)%string.

Definition example_bar_type (s : string) : Exn + BarType :=
  if has_char "-"%char s then inr (MkBarType s)
  else inl ("not a bar type: " ++ s)%string.

(** A host that raises as [r] says, lists two data types and whose clock
    advances with every effect. *)
Definition host_with (r : History -> Call -> option Exn) : Host :=
  {| BarType_from_str := example_bar_type;
     InstrumentId_from_str := example_instrument_id;
     raises := r;
     data_types_listed := fun _ => [Class "QuoteTick"; Other "custom"];
     datetime_now := fun h => 1700000000 + Z.of_nat (List.length h) |}.

Definition calm : Host := host_with (fun _ _ => None).

Definition disk_full : Host :=
  host_with (fun _ c => if is_write c then Some "disk full" else None).

Definition catalog_down : Host :=
  host_with (fun _ c =>
               match c with
               | list_data_types => Some "catalog unavailable"
               | _ => None
               end).


Definition ADA : InstrumentId := MkInstrumentId "ADAUSDT-PERP.BINANCE".
Definition LTC : InstrumentId := MkInstrumentId "LTCUSDT-PERP.BINANCE".
Definition ADA_1m : BarType :=
  MkBarType "ADAUSDT-PERP.BINANCE-1-MINUTE-LAST-EXTERNAL".

Definition example_config : BinanceDataStreamerConfig :=
  {| cfg_instrument_ids :=
       ["ADAUSDT-PERP.BINANCE"; "LTCUSDT"; "LTCUSDT-PERP.BINANCE"];
     cfg_bar_types :=
       ["ADAUSDT-PERP.BINANCE-1-MINUTE-LAST-EXTERNAL"; "hourly"];
     catalog_path := "./data/catalog" |}.

(** The actor the constructor builds from that configuration. *)
Definition example_actor : Actor :=
  actor_of (__init__ calm [] (new_actor example_config)).

Definition ADA_quote : QuoteTick :=
  {| quote_instrument_id := ADA; bid_price := 7301; ask_price := 7302 |}.
Definition LTC_quote : QuoteTick :=
  {| quote_instrument_id := LTC; bid_price := 845000; ask_price := 845100 |}.
Definition ADA_trade : TradeTick :=
  {| trade_instrument_id := ADA; price := 7302; size := 1500 |}.
Definition ADA_bar : Bar :=
  {| bar_type := ADA_1m; open := 7300; high := 7310; low := 7295;
     close := 7302; volume := 120000 |}.
(** A bar whose type was never configured. *)
Definition LTC_bar : Bar :=
  {| bar_type := MkBarType "LTCUSDT-PERP.BINANCE-5-MINUTE-LAST-EXTERNAL";
     open := 845000; high := 846000; low := 844000; close := 845500;
     volume := 900 |}.

Definition ADA_deltas : OrderBookDeltas := {| deltas_instrument_id := ADA |}.

(** ** Further readings of effects and of the actor *)

(** The counts printed by the sampled order-book messages. *)
Definition deltas_samples (es : list Effect) : list Z :=
  flat_map (fun m => match m with MsgDeltas n _ => [n] | _ => [] end)
    (messages es).

(** The numbers printed by the bar messages of one bar-type string. *)
Definition bar_numbers (k : string) (es : list Effect) : list Z :=
  flat_map (fun m =>
              match m with
              | MsgBar n k' _ _ _ _ _ => if String.eqb k' k then [n] else []
              | _ => []
              end)
    (messages es).

(** The keys of [bar_counts], in the order [items()] lists them. *)
Definition bar_keys (a : Actor) : list string :=
  map fst (Dict.items (bar_counts a)).

(** A host that refuses a book type in the place of the client id, with the
    [TypeError] of the argument check, and accepts every other call. *)
Definition type_checking : Host :=
  host_with (fun _ c =>
               if book_type_as_client_id c
               then Some "TypeError: Argument 'client_id' has incorrect type"
               else None).

(** A configuration without instruments, and the actor built from it. *)
Definition bars_only_config : BinanceDataStreamerConfig :=
  {| cfg_instrument_ids := [];
     cfg_bar_types :=
       ["ADAUSDT-PERP.BINANCE-1-MINUTE-LAST-EXTERNAL"; "hourly"];
     catalog_path := "./data/catalog" |}.

Definition bars_only_actor : Actor :=
  actor_of (__init__ calm [] (new_actor bars_only_config)).

(** The bar-type strings of the bars of a feed. *)
Definition bar_strings (ds : list Data) : list string :=
  flat_map (fun d => match d with
                     | DBar b => [bar_type_str (bar_type b)]
                     | _ => []
                     end) ds.

(** The messages logged at error level, in order. *)
Definition error_messages (es : list Effect) : list Message :=
  flat_map (fun e => match e with Log ERROR _ m => [m] | _ => [] end) es.

(** * The launcher, [main.py] *)

Module Main.

(** The classes of exceptions the launcher tells apart: [ValueError] and the
    other subclasses of [Exception], [asyncio.CancelledError], and the base
    exceptions that no [except Exception] clause catches. *)
Inductive ExnClass :=
| ValueError | OtherException | CancelledError | KeyboardInterrupt
| SystemExit.

(** An exception: its class and what [str] gives for it. *)
Record PyExn := { exn_class : ExnClass; exn_str : string }.

Definition is_Exception (c : ExnClass) : bool :=
  match c with
  | ValueError | OtherException => true
  | CancelledError | KeyboardInterrupt | SystemExit => false
  end.

(** The calls of [main] that may raise.  The construction of a
    configuration object, with the objects nested in it, is one step.
    [BinanceDataCollector] and its configuration come from a module that is
    not among the sources: their constructors are steps like the others. *)
Inductive Step :=
| load_dotenv
| TradingNodeConfig
| BinanceDataCollectorConfig
    (instrument_ids bar_types : list string) (catalog_path : string)
| TradingNode
| BinanceDataCollector
| add_actor
| add_data_client_factory
| build
| run_async
| sleep (seconds : Z)
| stop_async
| dispose.

(** The messages, one constructor per template of the source. *)
Inductive Text :=
| TxtWillRun (seconds : Z)
| TxtRunsForever
| TxtCancelled
| TxtFailed (e : string)
| TxtReleased
| TxtInterrupted.

Inductive Event :=
| Did (s : Step)
| Logged (level : LogLevel) (t : Text).

(** The process environment and the framework: the variables as
    [os.getenv] reads them, and which step raises what, both after the
    events so far. *)
Record Env :=
  { getenv : list Event -> string -> option string;
    fails : list Event -> Step -> option PyExn }.

(** How a run stands: it returned, it raised, or it is still in its loop
    when the number of rounds looked at is used up. *)
Inductive Result (A : Type) :=
| Returned (x : A)
| Raised (e : PyExn)
| Running.
Arguments Returned {A} x.
Arguments Raised {A} e.
Arguments Running {A}.

Definition N (A : Type) : Type := Env -> list Event -> Result A * list Event.

Definition ret {A} (x : A) : N A := fun _ _ => (Returned x, []).

Definition bind {A B} (m : N A) (f : A -> N B) : N B :=
  fun env h =>
    match m env h with
    | (Returned x, es1) =>
        let '(o, es2) := f x env (h ++ es1) in (o, es1 ++ es2)
    | (Raised e, es1) => (Raised e, es1)
    | (Running, es1) => (Running, es1)
    end.

Local Notation "m >>= f" := (bind m f) (at level 61, right associativity).
Local Notation "m >> k" := (bind m (fun _ => k))
  (at level 61, right associativity).

Definition raise {A} (e : PyExn) : N A := fun _ _ => (Raised e, []).

Definition step (s : Step) : N unit :=
  fun env h =>
    match fails env h s with
    | None => (Returned tt, [Did s])
    | Some e => (Raised e, [Did s])
    end.

Definition log (level : LogLevel) (t : Text) : N unit :=
  fun _ _ => (Returned tt, [Logged level t]).

Definition os_getenv (name : string) : N (option string) :=
  fun env h => (Returned (getenv env h name), []).

(** [try: body except asyncio.CancelledError: on_cancel
     except Exception as e: on_error e finally: cleanup]. *)
Definition try_except_finally
  (body on_cancel : N unit) (on_error : PyExn -> N unit) (cleanup : N unit)
  : N unit :=
  fun env h =>
    match body env h with
    | (Running, es1) => (Running, es1)
    | (o1, es1) =>
        let '(o2, es2) :=
          match o1 with
          | Raised e =>
              match exn_class e with
              | CancelledError => on_cancel env (h ++ es1)
              | c => if is_Exception c then on_error e env (h ++ es1)
                     else (Raised e, [])
              end
          | _ => (o1, [])
          end in
        match o2 with
        | Running => (Running, es1 ++ es2)
        | _ =>
            match cleanup env (h ++ es1 ++ es2) with
            | (Returned _, es3) => (o2, es1 ++ es2 ++ es3)
            | (o3, es3) => (o3, es1 ++ es2 ++ es3)
            end
        end
    end.

(** [while True: body], looked at for a number of rounds. *)
Fixpoint forever (rounds : nat) (body : N unit) : N unit :=
  match rounds with
  | O => fun _ _ => (Running, [])
  | S n => body >> forever n body
  end.

(** Python's truth of an optional string: [None] and the empty string are
    false. *)
Definition truthy (v : option string) : bool :=
  match v with
  | None => false
  | Some s => negb (String.eqb s "")
  end.

Definition instrument_ids : list string :=
  [ "ADAUSDT-PERP.BINANCE"; "LTCUSDT-PERP.BINANCE"; "SUIUSDT-PERP.BINANCE";
    "SOLUSDT-PERP.BINANCE"; "XRPUSDT-PERP.BINANCE" ].

(** [[f"{instrument_id}-1-MINUTE-LAST-EXTERNAL" for instrument_id in ids]] *)
Definition bar_types_for (ids : list string) : list string :=
  map (fun instrument_id => instrument_id ++ "-1-MINUTE-LAST-EXTERNAL")%string
    ids.

Definition catalog_path : string := "./data/catalog".

Definition duration_seconds : option Z := None.

(** The [ValueError] for missing credentials; its text stands for the
    sentence of the source. *)
Definition missing_credentials : PyExn :=
  {| exn_class := ValueError;
     exn_str := "BINANCE_FUTURES_API_KEY and BINANCE_FUTURES_API_SECRET" |}.

(** [main()], its endless loop looked at for [rounds] rounds. *)
Definition main (rounds : nat) : N unit :=
  step load_dotenv >>
  os_getenv "BINANCE_FUTURES_API_KEY" >>= fun api_key =>
  os_getenv "BINANCE_FUTURES_API_SECRET" >>= fun api_secret =>
  if negb (truthy api_key) || negb (truthy api_secret)
  then raise missing_credentials
  else
    let bar_types := bar_types_for instrument_ids in
    step TradingNodeConfig >>
    step (BinanceDataCollectorConfig instrument_ids bar_types catalog_path) >>
    step TradingNode >>
    step BinanceDataCollector >>
    step add_actor >>
    step add_data_client_factory >>
    step build >>
    try_except_finally
      (step run_async >>
       match duration_seconds with
       | Some d =>
           log INFO (TxtWillRun d) >> step (sleep d) >> step stop_async
       | None =>
           log INFO TxtRunsForever >> forever rounds (step (sleep 60))
       end)
      (log INFO TxtCancelled)
      (fun e => log ERROR (TxtFailed (exn_str e)))
      (step stop_async >> step (sleep 1) >> step dispose >>
       log INFO TxtReleased).

(** The script: [asyncio.run(main())] under [except KeyboardInterrupt]. *)
Definition script (rounds : nat) : N unit :=
  fun env h =>
    match main rounds env h with
    | (Raised e, es) =>
        match exn_class e with
        | KeyboardInterrupt => (Returned tt, es ++ [Logged INFO TxtInterrupted])
        | _ => (Raised e, es)
        end
    | r => r
    end.

Definition result_of {A} (r : Result A * list Event) : Result A := fst r.
Definition events_of {A} (r : Result A * list Event) : list Event := snd r.

(** The steps among some events, in order. *)
Definition steps (es : list Event) : list Step :=
  flat_map (fun e => match e with Did s => [s] | Logged _ _ => [] end) es.

(** The credentials are there: both variables are set and not empty. *)
Definition credentials_set (env : Env) : Prop :=
  forall h,
    truthy (getenv env h "BINANCE_FUTURES_API_KEY") = true /\
    truthy (getenv env h "BINANCE_FUTURES_API_SECRET") = true.

(** The steps before the [try], in order. *)
Definition setup : list Step :=
  [ load_dotenv; TradingNodeConfig;
    BinanceDataCollectorConfig instrument_ids (bar_types_for instrument_ids)
      catalog_path;
    TradingNode; BinanceDataCollector; add_actor; add_data_client_factory;
    build ].

(** The steps of the [finally] clause, in order. *)
Definition cleanup_steps : list Step := [stop_async; sleep 1; dispose].

(** What the [finally] clause emits when none of its steps raises. *)
Definition cleanup_events : list Event :=
  [ Did stop_async; Did (sleep 1); Did dispose; Logged INFO TxtReleased ].

(** Where the [try] body can be interrupted: at [run_async], or in the loop
    after a number of minutes slept through. *)
Inductive Moment :=
| AtRunAsync
| AtMinute (slept : nat).

(** The events of the [try] body when it has started the node, logged that
    it runs and asked for [n] minutes of sleep. *)
Definition minutes (n : nat) : list Event :=
  Did run_async :: Logged INFO TxtRunsForever :: repeat (Did (sleep 60)) n.

(** The events of the [try] body up to and with the step that raises. *)
Definition until (m : Moment) : list Event :=
  match m with
  | AtRunAsync => [Did run_async]
  | AtMinute slept => minutes (S slept)
  end.

(** The [try] body, entered after [h], raises [e] at moment [m] and nothing
    before: the environment lets [run_async] and the minutes before pass and
    answers the step at [m] with [e]. *)
Definition interrupted (env : Env) (h : list Event) (m : Moment) (e : PyExn)
  : Prop :=
  match m with
  | AtRunAsync => fails env h run_async = Some e
  | AtMinute slept =>
      fails env h run_async = None /\
      (forall k, (k < slept)%nat ->
                 fails env (h ++ minutes k) (sleep 60) = None) /\
      fails env (h ++ minutes slept) (sleep 60) = Some e
  end.

(** The moment lies within the rounds of the loop that are looked at. *)
Definition within (rounds : nat) (m : Moment) : Prop :=
  match m with
  | AtRunAsync => True
  | AtMinute slept => (slept < rounds)%nat
  end.

(** An environment with both credentials, in which the third minute of the
    loop is interrupted by [interrupt] and nothing else raises. *)
Definition interrupted_by (interrupt : PyExn) : Env :=
  {| getenv := fun _ name => Some ("value of " ++ name)%string;
     fails := fun h s =>
       match s with
       | sleep 60 =>
           if (2 <=? List.length (filter (fun e => match e with
                                                   | Did (sleep 60) => true
                                                   | _ => false
                                                   end) h))%nat
           then Some interrupt else None
       | _ => None
       end |}.

(** An environment in which the secret is set to the empty string. *)
Definition empty_secret : Env :=
  {| getenv := fun _ name =>
       if String.eqb name "BINANCE_FUTURES_API_SECRET" then Some ""
       else Some "key";
     fails := fun _ _ => None |}.

End Main.

(** * Proofs *)

(** ** Proof steps *)

(** Reduce the counter update of one datum and the field reads around it,
    leaving the arithmetic alone. *)
Ltac count_step :=
  cbn [counted is_quote is_trade is_deltas is_bar_of
       quote_count trade_count deltas_count bar_counts
       set_quote_count set_trade_count set_deltas_count set_bar_counts].

(** Decide every sampling test of the goal both ways. *)
Ltac split_sample :=
  repeat match goal with
         | |- context [if ?c then _ else _] => destruct c
         end.

(** ** Identifier resolution *)

Lemma skipped_length {A} (p : string -> Exn + A) raw :
  (List.length (skipped p raw) + List.length (resolved p raw))%nat
  = List.length raw.
Proof.
  induction raw as [|s raw IH]; simpl; [reflexivity|].
  destruct (p s); simpl; lia.
Qed.

Lemma resolve_instrument_ids_run host raw : forall h a,
  resolve_instrument_ids raw host h a =
  (Returned tt,
   set_instrument_ids
     (instrument_ids a ++ resolved (InstrumentId_from_str host) raw) a,
   map (fun se => Log ERROR NORMAL (MsgInstrumentParseError (fst se) (snd se)))
     (skipped (InstrumentId_from_str host) raw)).
Proof.
  induction raw as [|s raw IH]; intros h a.
  - simpl. rewrite app_nil_r. destruct a; reflexivity.
  - unfold resolve_instrument_ids in *. cbn [for_each].
    unfold bind at 1, try_except, parse, bind at 1.
    simpl resolved. simpl skipped.
    destruct (InstrumentId_from_str host s) as [e|i]; cbn.
    + rewrite IH. reflexivity.
    + rewrite IH. cbn. rewrite <- app_assoc. reflexivity.
Qed.

Lemma resolve_bar_types_run host raw : forall h a,
  resolve_bar_types raw host h a =
  (Returned tt,
   set_bar_counts
     (zeroed (accepted (BarType_from_str host) raw) (bar_counts a))
     (set_bar_types (bar_types a ++ resolved (BarType_from_str host) raw) a),
   map (fun se => Log ERROR NORMAL (MsgBarTypeParseError (fst se) (snd se)))
     (skipped (BarType_from_str host) raw)).
Proof.
  induction raw as [|s raw IH]; intros h a.
  - simpl. rewrite app_nil_r. destruct a; reflexivity.
  - unfold resolve_bar_types in *. cbn [for_each].
    unfold bind at 1, try_except, parse, bind at 1.
    simpl resolved. simpl skipped. simpl accepted.
    destruct (BarType_from_str host s) as [e|i]; cbn.
    + rewrite IH. reflexivity.
    + rewrite IH. cbn. rewrite <- app_assoc. reflexivity.
Qed.

(** ** Projections of effects *)

Lemma calls_app es1 es2 : calls (es1 ++ es2) = calls es1 ++ calls es2.
Proof. unfold calls. apply flat_map_app. Qed.

Lemma messages_app es1 es2 :
  messages (es1 ++ es2) = messages es1 ++ messages es2.
Proof. unfold messages. apply flat_map_app. Qed.

Lemma writes_app es1 es2 : writes (es1 ++ es2) = writes es1 ++ writes es2.
Proof. unfold writes. rewrite calls_app. apply flat_map_app. Qed.

(** ** Start and stop, as scripts *)

(** Unfold the monad and decide, call after call, whether the host raises. *)
Ltac run_calls :=
  cbn [perform]; unfold bind, call, self, log_info, emit, ret;
  repeat (cbn [app fst snd]; rewrite ?app_nil_r;
          match goal with
          | |- context [raises ?ho ?hi ?c] => destruct (raises ho hi c)
          end);
  cbn [app]; rewrite ?app_nil_r; try reflexivity.

Lemma perform_actor host es : forall h a, actor_of (perform es host h a) = a.
Proof.
  induction es as [|e es IH]; intros h a; [reflexivity|].
  destruct e as [l c m|c]; cbn [perform]; unfold bind, emit, call.
  - specialize (IH (h ++ [Log l c m]) a).
    destruct (perform es host _ a) as [[o a2] es2]. exact IH.
  - destruct (raises host h c); [reflexivity|].
    specialize (IH (h ++ [Called c]) a).
    destruct (perform es host _ a) as [[o a2] es2]. exact IH.
Qed.

Lemma perform_app host es1 : forall es2 h a,
  perform (es1 ++ es2) host h a = (perform es1 ;; perform es2) host h a.
Proof.
  induction es1 as [|e es1 IH]; intros es2 h a.
  - cbn [app perform]. unfold bind, ret. rewrite app_nil_r.
    destruct (perform es2 host h a) as [[o a2] es']. reflexivity.
  - destruct e as [l c m|c]; cbn [app perform]; unfold bind, emit, call.
    + rewrite IH. unfold bind.
      destruct (perform es1 host _ a) as [[[x|x] a1] es1'];
        [|reflexivity].
      rewrite <- app_assoc. cbn [app].
      destruct (perform es2 host _ a1) as [[o a2] es2']. reflexivity.
    + destruct (raises host h c); [reflexivity|].
      rewrite IH. unfold bind.
      destruct (perform es1 host _ a) as [[[x|x] a1] es1'];
        [|reflexivity].
      rewrite <- app_assoc. cbn [app].
      destruct (perform es2 host _ a1) as [[o a2] es2']. reflexivity.
Qed.

Lemma for_each_perform {A} (body : A -> M unit) (script : A -> list Effect)
  host a :
  (forall x h, body x host h a = perform (script x) host h a) ->
  forall xs h,
    for_each xs body host h a = perform (flat_map script xs) host h a.
Proof.
  intros Hbody. induction xs as [|x xs IH]; intros h; [reflexivity|].
  cbn [for_each flat_map]. rewrite perform_app. unfold bind.
  rewrite Hbody. pose proof (perform_actor host (script x) h a) as Ha.
  destruct (perform (script x) host h a) as [[[u|e] a1] es1];
    [|reflexivity].
  unfold actor_of in Ha. cbn in Ha. subst a1. rewrite IH. reflexivity.
Qed.

Lemma on_start_performs host h a :
  on_start host h a = perform (start_script a) host h a.
Proof.
  unfold on_start, start_script. cbn [perform].
  unfold bind, self, log_info, emit. rewrite perform_app. unfold bind.
  rewrite (for_each_perform _ (start_instrument (book_type a)))
    by (intros i h'; unfold start_instrument; run_calls).
  cbn [app]. rewrite ?app_nil_r.
  pose proof (perform_actor host
                (flat_map (start_instrument (book_type a)) (instrument_ids a))
                (h ++ [Log INFO NORMAL
                         (MsgStarting (catalog_path (config a)))]) a)
    as Ha.
  destruct (perform (flat_map _ _) host _ a) as [[[u|e] a1] es1];
    [|reflexivity].
  unfold actor_of in Ha. cbn in Ha. subst a1.
  rewrite (for_each_perform _ start_bar_type)
    by (intros b h'; unfold start_bar_type; run_calls).
  cbn [app]. rewrite ?app_nil_r.
  destruct (perform (flat_map start_bar_type _) host _ a) as [[o a2] es2].
  reflexivity.
Qed.

Lemma on_stop_performs host h a :
  on_stop host h a = perform (stop_script a) host h a.
Proof.
  unfold on_stop, stop_script. cbn [perform].
  unfold bind, self, log_info, emit. rewrite !perform_app. unfold bind.
  rewrite (for_each_perform _ (stop_instrument (book_type a)))
    by (intros i h'; unfold stop_instrument; run_calls).
  cbn [app]. rewrite ?app_nil_r.
  pose proof (perform_actor host
                (flat_map (stop_instrument (book_type a)) (instrument_ids a))
                (h ++ [Log INFO NORMAL MsgStopping]) a) as Ha.
  destruct (perform (flat_map _ _) host _ a) as [[[u|e] a1] es1];
    [|reflexivity].
  unfold actor_of in Ha. cbn in Ha. subst a1.
  rewrite (for_each_perform _ stop_bar_type)
    by (intros b h'; unfold stop_bar_type; run_calls).
  rewrite perform_app. unfold bind. cbn [app]. rewrite ?app_nil_r.
  pose proof (perform_actor host (flat_map stop_bar_type (bar_types a))
                ((h ++ [Log INFO NORMAL MsgStopping]) ++ es1) a) as Ha.
  destruct (perform (flat_map stop_bar_type _) host _ a)
    as [[[u'|e] a1] es2]; [|reflexivity].
  unfold actor_of in Ha. cbn in Ha. subst a1.
  unfold try_except. cbn. rewrite ?app_nil_r. reflexivity.
Qed.

Lemma perform_quiet host es :
  (forall h c, In c (calls es) -> raises host h c = None) ->
  forall h a, perform es host h a = (Returned tt, a, es).
Proof.
  induction es as [|e es IH]; intros Hq h a; [reflexivity|].
  destruct e as [l c m|c]; cbn [perform]; unfold bind, emit, call.
  - rewrite IH; [reflexivity|]. intros h' c' Hc'. apply Hq. exact Hc'.
  - rewrite Hq by (left; reflexivity).
    rewrite IH; [reflexivity|]. intros h' c' Hc'. apply Hq. right. exact Hc'.
Qed.


(** ** Dictionary facts *)

Lemma Dict_get_set_same {V} (d : Dict.t V) k v :
  Dict.get (Dict.set d k v) k = Some v.
Proof.
  induction d as [|[k' v'] d IH]; simpl.
  - rewrite String.eqb_refl. reflexivity.
  - destruct (String.eqb k' k) eqn:E; simpl; rewrite E; auto.
Qed.

Lemma Dict_get_set_other {V} (d : Dict.t V) k k' v :
  k <> k' -> Dict.get (Dict.set d k v) k' = Dict.get d k'.
Proof.
  intros Hne. induction d as [|[k0 v0] d IH]; simpl.
  - destruct (String.eqb k k') eqn:E; [|reflexivity].
    apply String.eqb_eq in E. contradiction.
  - destruct (String.eqb k0 k) eqn:E; simpl.
    + apply String.eqb_eq in E. subst k0.
      destruct (String.eqb k k') eqn:E'; [|reflexivity].
      apply String.eqb_eq in E'. contradiction.
    + rewrite IH. reflexivity.
Qed.

Lemma Dict_get_default_set_same {V} (d : Dict.t V) k v x :
  Dict.get_default (Dict.set d k v) k x = v.
Proof. unfold Dict.get_default. rewrite Dict_get_set_same. reflexivity. Qed.

Lemma Dict_get_default_set_other {V} (d : Dict.t V) k k' v x :
  k <> k' -> Dict.get_default (Dict.set d k v) k' x = Dict.get_default d k' x.
Proof.
  intros Hne. unfold Dict.get_default.
  rewrite Dict_get_set_other by assumption. reflexivity.
Qed.

(** ** One delivery *)

Lemma call_run host h a c :
  call c host h a = (answered host h c, a, [Called c]).
Proof. unfold call, answered. destruct (raises host h c); reflexivity. Qed.

(** Every callback counts, then announces, then forwards; its outcome is the
    outcome of the write. *)
Lemma deliver_run host h a d :
  deliver d host h a =
  (answered host (h ++ announced d (counted d a)) (write_data [d] (mode_of d)),
   counted d a,
   announced d (counted d a) ++ [Called (write_data [d] (mode_of d))]).
Proof.
  destruct d as [i|t|t|ds|b]; cbn [deliver counted announced mode_of].
  - unfold on_instrument, bind, log_info, emit. rewrite call_run. reflexivity.
  - unfold on_quote_tick, bind, assign, self, when.
    cbn [quote_count set_quote_count].
    destruct (_ =? 0); unfold log_info, emit, ret;
      rewrite call_run, ?app_nil_r; reflexivity.
  - unfold on_trade_tick, bind, assign, self, when.
    cbn [trade_count set_trade_count].
    destruct (_ =? 0); unfold log_info, emit, ret;
      rewrite call_run, ?app_nil_r; reflexivity.
  - unfold on_order_book_deltas, bind, assign, self, when.
    cbn [deltas_count set_deltas_count].
    destruct (_ =? 0); unfold log_info, emit, ret;
      rewrite call_run, ?app_nil_r; reflexivity.
  - unfold on_bar, bind, assign, self, getitem.
    cbn [bar_counts set_bar_counts].
    rewrite Dict_get_set_same, Dict_get_default_set_same.
    unfold ret, log_info, emit.
    rewrite call_run, ?app_nil_r. reflexivity.
Qed.

(** ** A whole feed *)

Lemma feed_run host ds : forall h a,
  actor_of (feed ds host h a) = fed ds a /\
  effects_of (feed ds host h a) = fed_effects ds a /\
  List.length (outcome_of (feed ds host h a)) = List.length ds.
Proof.
  induction ds as [|d ds IH]; intros h a; [repeat split|].
  cbn [feed fed fed_effects fold_left]. rewrite deliver_run.
  specialize (IH (h ++ announced d (counted d a)
                    ++ [Called (write_data [d] (mode_of d))]) (counted d a)).
  destruct (feed ds host _ (counted d a)) as [[os a2] es2].
  unfold actor_of, effects_of, outcome_of in *. cbn in *.
  destruct IH as (-> & -> & ->). repeat split.
Qed.

Lemma number_cons p d ds :
  number p (d :: ds) = (if p d then 1 else 0) + number p ds.
Proof.
  unfold number. simpl. destruct (p d); simpl List.length; lia.
Qed.

Lemma fed_quote_count ds : forall a,
  quote_count (fed ds a) = quote_count a + number is_quote ds.
Proof.
  induction ds as [|d ds IH]; intros a.
  - unfold number. simpl. lia.
  - cbn [fed fold_left]. fold (fed ds (counted d a)).
    rewrite IH, number_cons. destruct d; count_step; lia.
Qed.

Lemma fed_trade_count ds : forall a,
  trade_count (fed ds a) = trade_count a + number is_trade ds.
Proof.
  induction ds as [|d ds IH]; intros a.
  - unfold number. simpl. lia.
  - cbn [fed fold_left]. fold (fed ds (counted d a)).
    rewrite IH, number_cons. destruct d; count_step; lia.
Qed.

Lemma fed_deltas_count ds : forall a,
  deltas_count (fed ds a) = deltas_count a + number is_deltas ds.
Proof.
  induction ds as [|d ds IH]; intros a.
  - unfold number. simpl. lia.
  - cbn [fed fold_left]. fold (fed ds (counted d a)).
    rewrite IH, number_cons. destruct d; count_step; lia.
Qed.

Lemma fed_bar_count k ds : forall a,
  Dict.get_default (bar_counts (fed ds a)) k 0 =
  Dict.get_default (bar_counts a) k 0 + number (is_bar_of k) ds.
Proof.
  induction ds as [|d ds IH]; intros a.
  - unfold number. simpl. lia.
  - cbn [fed fold_left]. fold (fed ds (counted d a)).
    rewrite IH, number_cons. destruct d as [i|t|t|x|b]; count_step; try lia.
    destruct (String.eqb (bar_type_str (bar_type b)) k) eqn:E.
    + apply String.eqb_eq in E. subst k.
      rewrite Dict_get_default_set_same. lia.
    + apply String.eqb_neq in E.
      rewrite Dict_get_default_set_other by assumption. lia.
Qed.

Lemma calls_announced d a : calls (announced d a) = [].
Proof.
  destruct d; cbn [announced]; split_sample; reflexivity.
Qed.

Lemma fed_writes ds : forall a,
  writes (fed_effects ds a) = map (fun d => ([d], mode_of d)) ds.
Proof.
  induction ds as [|d ds IH]; intros a; [reflexivity|].
  cbn [fed_effects map]. rewrite !writes_app, IH.
  unfold writes at 1. rewrite calls_announced. reflexivity.
Qed.

Lemma quote_samples_app es1 es2 :
  quote_samples (es1 ++ es2) = quote_samples es1 ++ quote_samples es2.
Proof. unfold quote_samples. rewrite messages_app. apply flat_map_app. Qed.

Lemma trade_samples_app es1 es2 :
  trade_samples (es1 ++ es2) = trade_samples es1 ++ trade_samples es2.
Proof. unfold trade_samples. rewrite messages_app. apply flat_map_app. Qed.

Lemma fed_quote_samples ds : forall a,
  quote_samples (fed_effects ds a) =
  multiples 100 (quote_count a + 1) (List.length (filter is_quote ds)).
Proof.
  induction ds as [|d ds IH]; intros a; [reflexivity|].
  cbn [fed_effects]. rewrite !quote_samples_app, IH.
  destruct d as [i|t|t|x|b]; cbn [filter is_quote announced]; count_step;
    unfold multiples; cbn [List.length Zrange filter];
    split_sample; reflexivity.
Qed.

Lemma fed_trade_samples ds : forall a,
  trade_samples (fed_effects ds a) =
  multiples 10 (trade_count a + 1) (List.length (filter is_trade ds)).
Proof.
  induction ds as [|d ds IH]; intros a; [reflexivity|].
  cbn [fed_effects]. rewrite !trade_samples_app, IH.
  destruct d as [i|t|t|x|b]; cbn [filter is_trade announced]; count_step;
    unfold multiples; cbn [List.length Zrange filter];
    split_sample; reflexivity.
Qed.

(** ** Construction *)

Lemma init_run host cfg h :
  __init__ host h (new_actor cfg) =
  match raises host h (makedirs (catalog_path cfg)) with
  | Some e => (Raised e, new_actor cfg, [Called (makedirs (catalog_path cfg))])
  | None =>
      match raises host (h ++ [Called (makedirs (catalog_path cfg))])
              (ParquetDataCatalog (catalog_path cfg)) with
      | Some e =>
          (Raised e, new_actor cfg,
           [ Called (makedirs (catalog_path cfg));
             Called (ParquetDataCatalog (catalog_path cfg)) ])
      | None =>
          (Returned tt, constructed host cfg,
           Called (makedirs (catalog_path cfg))
           :: Called (ParquetDataCatalog (catalog_path cfg))
           :: init_errors host cfg)
      end
  end.
Proof.
  unfold __init__, bind, self, assign, call.
  cbn [new_actor config app]. rewrite app_nil_r.
  destruct (raises host h _); [reflexivity|].
  destruct (raises host _ _); [reflexivity|].
  rewrite resolve_bar_types_run, resolve_instrument_ids_run. reflexivity.
Qed.

Lemma init_returned host cfg h :
  outcome_of (__init__ host h (new_actor cfg)) = Returned tt ->
  actor_of (__init__ host h (new_actor cfg)) = constructed host cfg.
Proof.
  rewrite init_run.
  destruct (raises host h _); [discriminate|].
  destruct (raises host _ _); [discriminate|]. reflexivity.
Qed.

Lemma zeroed_get_default keys : forall d k,
  Dict.get_default d k 0 = 0 -> Dict.get_default (zeroed keys d) k 0 = 0.
Proof.
  induction keys as [|k0 keys IH]; intros d k Hd; [assumption|].
  cbn [zeroed fold_left]. apply IH.
  destruct (String.eqb k0 k) eqn:E.
  - apply String.eqb_eq in E. subst. apply Dict_get_default_set_same.
  - apply String.eqb_neq in E.
    rewrite Dict_get_default_set_other; assumption.
Qed.

(** ** The status report *)

Lemma for_each_emits {A} (body : A -> M unit) (f : A -> Effect) host :
  (forall x h a, body x host h a = (Returned tt, a, [f x])) ->
  forall xs h a, for_each xs body host h a = (Returned tt, a, map f xs).
Proof.
  intros Hbody. induction xs as [|x xs IH]; intros h a; [reflexivity|].
  cbn [for_each map]. unfold bind. rewrite Hbody, IH. reflexivity.
Qed.

Lemma log_status_run host h a :
  _log_status host h a =
  (Returned tt, a,
   report (datetime_now host h) a (inventory host (query_moment host h a))).
Proof.
  unfold _log_status.
  unfold bind at 1, ask at 1.
  unfold bind at 1, log_info_color at 1, emit at 1.
  unfold bind at 1, self at 1.
  unfold bind at 1, log_info_color at 1, emit at 1.
  unfold bind at 1, self at 1.
  unfold bind at 1, log_info_color at 1, emit at 1.
  unfold bind at 1, self at 1.
  unfold bind at 1.
  rewrite (for_each_emits _
             (fun kv => Log INFO YELLOW (MsgStatusBars (fst kv) (snd kv))))
    by (intros [k n] ? ?; reflexivity).
  unfold try_except, bind at 1. rewrite call_run. unfold answered.
  unfold report, inventory, query_moment, counter_lines.
  cbn [app]. rewrite <- !app_assoc. cbn [app].
  destruct (raises host _ list_data_types) as [e|].
  - cbn. rewrite ?app_nil_r. reflexivity.
  - unfold bind at 1, ask at 1.
    unfold bind at 1, log_info_color at 1, emit at 1.
    rewrite (for_each_emits _
               (fun d => Log INFO MAGENTA (MsgCatalogType (type_name d))))
      by reflexivity.
    cbn. rewrite ?app_nil_r. reflexivity.
Qed.

(** ** The callbacks, one event at a time *)

Lemma counted_counters d a :
  quote_count (counted d a) = quote_count a + (if is_quote d then 1 else 0) /\
  trade_count (counted d a) = trade_count a + (if is_trade d then 1 else 0) /\
  deltas_count (counted d a)
  = deltas_count a + (if is_deltas d then 1 else 0) /\
  forall k,
    Dict.get_default (bar_counts (counted d a)) k 0
    = Dict.get_default (bar_counts a) k 0 + (if is_bar_of k d then 1 else 0).
Proof.
  pose proof (fed_quote_count [d] a) as Hq.
  pose proof (fed_trade_count [d] a) as Ht.
  pose proof (fed_deltas_count [d] a) as Hd.
  pose proof (fun k => fed_bar_count k [d] a) as Hb.
  unfold fed in *. cbn [fold_left] in *.
  rewrite Hq, Ht, Hd. repeat split; try (rewrite number_cons; cbn; lia).
  intros k. rewrite Hb, number_cons. cbn. lia.
Qed.

(** C1 (counterexample).  The catalog refuses the write of a quote:
    [on_quote_tick] raises instead of recovering, and its only effect is the
    write call, so no failure record is logged. *)
Lemma write_failure_escapes_on_quote_tick :
  outcome_of (on_quote_tick ADA_quote disk_full [] example_actor)
  = Raised "disk full" /\
  effects_of (on_quote_tick ADA_quote disk_full [] example_actor)
  = [Called (write_data [DQuote ADA_quote] (Some APPEND))].
Proof. split; reflexivity. Qed.

(** C1 (as amended).  When the [write_data] call of a callback raises, the
    callback does not catch it: the exception reaches the caller, and the
    write call is the last effect, so nothing is logged about the failure.
    The counter of the event's category has been incremented before the
    write and keeps the increment; every other counter is as before.  If the
    feed goes on delivering, the later events are counted and forwarded from
    that state as usual.  The hypothesis reads: the host raises [e] on the
    write of this event at the moment the callback makes it, which is after
    the message the event may have caused. *)
Theorem write_failure_propagates_after_count host h a d e :
  raises host (h ++ announced d (counted d a)) (write_data [d] (mode_of d))
  = Some e ->
  let r := deliver d host h a in
  outcome_of r = Raised e /\
  effects_of r
  = announced d (counted d a) ++ [Called (write_data [d] (mode_of d))] /\
  quote_count (actor_of r) = quote_count a + (if is_quote d then 1 else 0) /\
  trade_count (actor_of r) = trade_count a + (if is_trade d then 1 else 0) /\
  deltas_count (actor_of r)
  = deltas_count a + (if is_deltas d then 1 else 0) /\
  (forall k,
     Dict.get_default (bar_counts (actor_of r)) k 0
     = Dict.get_default (bar_counts a) k 0
       + (if is_bar_of k d then 1 else 0)) /\
  (forall rest,
     actor_of (feed (d :: rest) host h a) = fed rest (actor_of r) /\
     effects_of (feed (d :: rest) host h a)
     = effects_of r ++ fed_effects rest (actor_of r)).
Proof.
  intros Hfail r. subst r. rewrite deliver_run.
  unfold outcome_of, actor_of, effects_of, answered. cbn [fst snd].
  rewrite Hfail.
  destruct (counted_counters d a) as (Hq & Ht & Hd & Hb).
  repeat split; try assumption.
  - destruct (feed_run host (d :: rest) h a) as (Hact & _ & _).
    unfold actor_of in Hact. rewrite Hact. reflexivity.
  - destruct (feed_run host (d :: rest) h a) as (_ & Heff & _).
    unfold effects_of in Heff. rewrite Heff. reflexivity.
Qed.

(** An instance: a quote for ADA and a catalog that refuses every write. *)
Lemma write_failure_propagates_after_count_witness :
  raises disk_full
    ([] ++ announced (DQuote ADA_quote)
             (counted (DQuote ADA_quote) example_actor))
    (write_data [DQuote ADA_quote] (mode_of (DQuote ADA_quote)))
  = Some "disk full" /\
  outcome_of (deliver (DQuote ADA_quote) disk_full [] example_actor)
  = Raised "disk full" /\
  quote_count (actor_of (deliver (DQuote ADA_quote) disk_full [] example_actor))
  = 1.
Proof.
  split; [reflexivity|].
  destruct (write_failure_propagates_after_count disk_full [] example_actor
              (DQuote ADA_quote) "disk full" eq_refl) as (Ho & _ & Hq & _).
  split; [exact Ho | rewrite Hq; reflexivity].
Defined.

(** C7.  Every callback forwards its event to the catalog exactly once, as a
    batch of that one event: in append mode for a quote, a trade, order-book
    deltas and a bar, and with no mode argument, so in the catalog's default
    mode, for an instrument. *)
Theorem event_forwarded_as_single_batch host h a d :
  writes (effects_of (deliver d host h a))
  = [([d], match d with
           | DInstrument _ => None
           | DQuote _ | DTrade _ | DDeltas _ | DBar _ => Some APPEND
           end)].
Proof.
  rewrite deliver_run. unfold effects_of. cbn [snd].
  rewrite writes_app. unfold writes at 1. rewrite calls_announced.
  destruct d; reflexivity.
Qed.

(** ** The resolution loops of the constructor *)

(** C8.  Each of the two resolution loops of the constructor returns
    normally whatever the entries are, appends to its roster exactly the
    handles of the entries that parse, in input order, and logs one error
    per entry that does not parse, in input order; the number of skipped
    entries is the number of entries minus the number of handles.  The
    constructor runs the loops on empty rosters: when it returns, the two
    rosters are exactly the handles of the configured entries that parse. *)
Theorem resolver_is_stable_filter host raw h a :
  let ri := resolve_instrument_ids raw host h a in
  let rb := resolve_bar_types raw host h a in
  (outcome_of ri = Returned tt /\
   instrument_ids (actor_of ri)
   = instrument_ids a ++ resolved (InstrumentId_from_str host) raw /\
   effects_of ri
   = map (fun se =>
            Log ERROR NORMAL (MsgInstrumentParseError (fst se) (snd se)))
       (skipped (InstrumentId_from_str host) raw) /\
   List.length (skipped (InstrumentId_from_str host) raw)
   = (List.length raw
      - List.length (resolved (InstrumentId_from_str host) raw))%nat) /\
  (outcome_of rb = Returned tt /\
   bar_types (actor_of rb)
   = bar_types a ++ resolved (BarType_from_str host) raw /\
   effects_of rb
   = map (fun se => Log ERROR NORMAL (MsgBarTypeParseError (fst se) (snd se)))
       (skipped (BarType_from_str host) raw) /\
   List.length (skipped (BarType_from_str host) raw)
   = (List.length raw - List.length (resolved (BarType_from_str host) raw))%nat)
  /\
  (forall cfg,
     outcome_of (__init__ host h (new_actor cfg)) = Returned tt ->
     instrument_ids (actor_of (__init__ host h (new_actor cfg)))
     = resolved (InstrumentId_from_str host) (cfg_instrument_ids cfg) /\
     bar_types (actor_of (__init__ host h (new_actor cfg)))
     = resolved (BarType_from_str host) (cfg_bar_types cfg)).
Proof.
  cbv zeta. rewrite resolve_instrument_ids_run, resolve_bar_types_run.
  pose proof (skipped_length (InstrumentId_from_str host) raw).
  pose proof (skipped_length (BarType_from_str host) raw).
  unfold outcome_of, actor_of, effects_of. cbn [fst snd].
  split; [repeat split; lia|]. split; [repeat split; lia|].
  intros cfg Hinit. pose proof (init_returned host cfg h Hinit) as Ha.
  unfold actor_of in Ha. rewrite Ha. split; reflexivity.
Qed.

(** An instance: three instrument entries, the second without venue. *)
Lemma resolver_is_stable_filter_witness :
  outcome_of (__init__ calm [] (new_actor example_config)) = Returned tt /\
  instrument_ids (actor_of (__init__ calm [] (new_actor example_config)))
  = [ADA; LTC] /\
  effects_of
    (resolve_instrument_ids (cfg_instrument_ids example_config) calm []
       (new_actor example_config))
  = [ Log ERROR NORMAL
        (MsgInstrumentParseError "LTCUSDT" "missing venue: LTCUSDT") ].
Proof.
  split; [reflexivity|].
  destruct (resolver_is_stable_filter calm
              (cfg_instrument_ids example_config) []
              (new_actor example_config)) as ((_ & _ & He & _) & _ & Hinit).
  destruct (Hinit example_config eq_refl) as (Hi & _).
  split; [rewrite Hi; reflexivity | rewrite He; reflexivity].
Defined.

(** ** A bar of a type not seen before *)

(** C10 (counterexample).  The catalog refuses the write of a bar whose
    type was never configured: [on_bar] raises. *)
Lemma unseen_bar_write_failure_escapes :
  Dict.get (bar_counts example_actor) (bar_type_str (bar_type LTC_bar))
  = None /\
  outcome_of (on_bar LTC_bar disk_full [] example_actor)
  = Raised "disk full".
Proof. split; reflexivity. Qed.

(** C10 (as amended).  For a bar whose bar-type string has no entry in
    [bar_counts], whatever the host does: [on_bar] creates the entry with
    value 1 and leaves the other entries as they are, logs the bar under
    number 1 and issues the write of the bar as a single-element batch in
    append mode, in this order and nothing else.  It raises no error of its
    own, no [KeyError] in particular: it returns normally when the catalog
    accepts that write, and when the write raises, it raises that exception,
    the entry and the log line being made already. *)
Theorem unseen_bar_type_counts_from_one host h a bar :
  Dict.get (bar_counts a) (bar_type_str (bar_type bar)) = None ->
  let key := bar_type_str (bar_type bar) in
  let line :=
    Log INFO NORMAL
      (MsgBar 1 key (open bar) (high bar) (low bar) (close bar)
         (volume bar)) in
  let write := write_data [DBar bar] (Some APPEND) in
  let r := on_bar bar host h a in
  Dict.get (bar_counts (actor_of r)) key = Some 1 /\
  (forall k, k <> key ->
             Dict.get (bar_counts (actor_of r)) k = Dict.get (bar_counts a) k)
  /\
  effects_of r = [line; Called write] /\
  outcome_of r
  = match raises host (h ++ [line]) write with
    | None => Returned tt
    | Some e => Raised e
    end.
Proof.
  intros Hnew key line write r. subst key line write r.
  change (on_bar bar) with (deliver (DBar bar)). rewrite deliver_run.
  unfold outcome_of, actor_of, effects_of, answered. cbn [fst snd mode_of].
  cbn [counted announced bar_counts set_bar_counts].
  rewrite Dict_get_default_set_same, Dict_get_set_same.
  unfold Dict.get_default. rewrite Hnew. cbn [app Z.add].
  split; [reflexivity|]. split; [|split; reflexivity].
  intros k Hk. apply Dict_get_set_other. congruence.
Qed.

(** Two instances: a five-minute LTC bar, a bar type that was not
    configured, on a catalog that accepts the write and on one that refuses
    it. *)
Lemma unseen_bar_type_counts_from_one_witness :
  Dict.get (bar_counts example_actor) (bar_type_str (bar_type LTC_bar))
  = None /\
  outcome_of (on_bar LTC_bar calm [] example_actor) = Returned tt /\
  Dict.get (bar_counts (actor_of (on_bar LTC_bar calm [] example_actor)))
    (bar_type_str (bar_type LTC_bar)) = Some 1 /\
  outcome_of (on_bar LTC_bar disk_full [] example_actor)
  = Raised "disk full" /\
  Dict.get (bar_counts (actor_of (on_bar LTC_bar disk_full [] example_actor)))
    (bar_type_str (bar_type LTC_bar)) = Some 1.
Proof.
  split; [reflexivity|].
  destruct (unseen_bar_type_counts_from_one calm [] example_actor LTC_bar
              eq_refl) as (Hc & _ & _ & Ho).
  destruct (unseen_bar_type_counts_from_one disk_full [] example_actor
              LTC_bar eq_refl) as (Hc' & _ & _ & Ho').
  split; [exact Ho|]. split; [exact Hc|]. split; [exact Ho' | exact Hc'].
Defined.

(** ** Counters over a feed *)

Lemma number_ext_in p q ds :
  (forall d, In d ds -> p d = q d) -> number p ds = number q ds.
Proof.
  intros H. unfold number. rewrite (filter_ext_in p q ds H). reflexivity.
Qed.

Lemma constructed_bar_count host cfg k :
  Dict.get_default (bar_counts (constructed host cfg)) k 0 = 0.
Proof. cbn [constructed bar_counts]. apply zeroed_get_default. reflexivity. Qed.

(** C2 (counterexample).  One quote for ADA and one for LTC: the sequence
    holds N = 1 quote for ADA, and the quote counter, the only one there is
    for quotes, is 2. *)
Lemma quote_counter_shared_across_instruments :
  number (is_quote_of "ADAUSDT-PERP.BINANCE")
    [DQuote ADA_quote; DQuote LTC_quote] = 1 /\
  quote_count
    (actor_of (feed [DQuote ADA_quote; DQuote LTC_quote] calm []
                 example_actor)) = 2.
Proof. split; reflexivity. Qed.

(** C2 (as amended).  From a freshly constructed actor, after any sequence
    of events: the quote, trade and order-book-delta counters each equal the
    number of events of their category in the sequence, over all instruments
    together, and the bar counter of a bar-type string equals the number of
    bars with that string, whatever is interleaved.  Hence the quote, trade
    or delta counter equals the number of events of one instrument when the
    sequence holds no event of that category for another instrument. *)
Theorem counters_count_by_category host cfg h0 ds h :
  outcome_of (__init__ host h0 (new_actor cfg)) = Returned tt ->
  let a := actor_of (__init__ host h0 (new_actor cfg)) in
  let r := feed ds host h a in
  quote_count (actor_of r) = number is_quote ds /\
  trade_count (actor_of r) = number is_trade ds /\
  deltas_count (actor_of r) = number is_deltas ds /\
  (forall k,
     Dict.get_default (bar_counts (actor_of r)) k 0
     = number (is_bar_of k) ds) /\
  (forall k,
     (forall d, In d ds -> is_quote d = true -> is_quote_of k d = true) ->
     quote_count (actor_of r) = number (is_quote_of k) ds) /\
  (forall k,
     (forall d, In d ds -> is_trade d = true -> is_trade_of k d = true) ->
     trade_count (actor_of r) = number (is_trade_of k) ds) /\
  (forall k,
     (forall d, In d ds -> is_deltas d = true -> is_deltas_of k d = true) ->
     deltas_count (actor_of r) = number (is_deltas_of k) ds).
Proof.
  intros Hinit a r. subst a r. rewrite (init_returned _ _ _ Hinit).
  destruct (feed_run host ds h (constructed host cfg)) as (-> & _ & _).
  rewrite fed_quote_count, fed_trade_count, fed_deltas_count.
  cbn [constructed quote_count trade_count deltas_count].
  repeat split; try reflexivity.
  - intros k. rewrite fed_bar_count, constructed_bar_count. reflexivity.
  - intros k Hk. apply number_ext_in. intros d Hd.
    specialize (Hk d Hd). destruct d; try reflexivity.
    cbn in *. rewrite Hk; reflexivity.
  - intros k Hk. apply number_ext_in. intros d Hd.
    specialize (Hk d Hd). destruct d; try reflexivity.
    cbn in *. rewrite Hk; reflexivity.
  - intros k Hk. apply number_ext_in. intros d Hd.
    specialize (Hk d Hd). destruct d; try reflexivity.
    cbn in *. rewrite Hk; reflexivity.
Qed.

(** An instance: two quotes of different instruments among other events. *)
Lemma counters_count_by_category_witness :
  outcome_of (__init__ calm [] (new_actor example_config)) = Returned tt /\
  quote_count
    (actor_of
       (feed [DQuote ADA_quote; DBar ADA_bar; DTrade ADA_trade;
              DQuote LTC_quote] calm []
          (actor_of (__init__ calm [] (new_actor example_config)))))
  = 2.
Proof.
  split; [reflexivity|].
  destruct (counters_count_by_category calm example_config []
              [DQuote ADA_quote; DBar ADA_bar; DTrade ADA_trade;
               DQuote LTC_quote] [] eq_refl) as (Hq & _).
  rewrite Hq. reflexivity.
Defined.

(** ** The scenario of 250 quotes followed by 15 trades *)

Lemma filter_quotes_of_quotes quotes :
  filter is_quote (map DQuote quotes) = map DQuote quotes /\
  filter is_trade (map DQuote quotes) = [].
Proof.
  induction quotes as [|q quotes [IHq IHt]]; [split; reflexivity|].
  cbn [map filter is_quote is_trade]. rewrite IHq, IHt. split; reflexivity.
Qed.

Lemma filter_trades_of_trades trades :
  filter is_trade (map DTrade trades) = map DTrade trades /\
  filter is_quote (map DTrade trades) = [].
Proof.
  induction trades as [|t trades [IHt IHq]]; [split; reflexivity|].
  cbn [map filter is_quote is_trade]. rewrite IHq, IHt. split; reflexivity.
Qed.

Lemma filter_quotes_then_trades quotes trades :
  filter is_quote (map DQuote quotes ++ map DTrade trades) = map DQuote quotes
  /\ filter is_trade (map DQuote quotes ++ map DTrade trades)
     = map DTrade trades.
Proof.
  rewrite !filter_app.
  destruct (filter_quotes_of_quotes quotes) as (-> & ->).
  destruct (filter_trades_of_trades trades) as (-> & ->).
  rewrite app_nil_r. split; reflexivity.
Qed.

(** C6.  From zero quote and trade counters, 250 quotes followed by 15
    trades leave the quote counter at 250 and the trade counter at 15; the
    sampled quote messages are those of events 100 and 200 and the sampled
    trade message is that of event 10; every event is written once, in
    append mode, 265 writes in all.  The cadence is fixed: a quote is logged
    when the quote counter is a multiple of 100, a trade when the trade
    counter is a multiple of 10, order-book deltas when their counter is a
    multiple of 100, a bar always. *)
Theorem quotes_250_then_trades_15 host h a quotes trades :
  quote_count a = 0 ->
  trade_count a = 0 ->
  List.length quotes = 250%nat ->
  List.length trades = 15%nat ->
  let ds := map DQuote quotes ++ map DTrade trades in
  let r := feed ds host h a in
  quote_count (actor_of r) = 250 /\
  trade_count (actor_of r) = 15 /\
  quote_samples (effects_of r) = [100; 200] /\
  trade_samples (effects_of r) = [10] /\
  writes (effects_of r) = map (fun d => ([d], Some APPEND)) ds /\
  List.length (writes (effects_of r)) = 265%nat /\
  (forall d h0 a0,
     let r0 := deliver d host h0 a0 in
     messages (effects_of r0) <> [] <->
     match d with
     | DQuote _ => quote_count (actor_of r0) mod 100 = 0
     | DTrade _ => trade_count (actor_of r0) mod 10 = 0
     | DDeltas _ => deltas_count (actor_of r0) mod 100 = 0
     | DBar _ | DInstrument _ => True
     end).
Proof.
  intros Hq Ht Hnq Hnt ds r. subst r.
  destruct (feed_run host ds h a) as (-> & -> & _).
  destruct (filter_quotes_then_trades quotes trades) as (Hfq & Hft).
  fold ds in Hfq, Hft.
  rewrite fed_quote_count, fed_trade_count, fed_quote_samples,
    fed_trade_samples, fed_writes.
  unfold number. rewrite Hfq, Hft, !length_map, Hq, Ht, Hnq, Hnt.
  split; [reflexivity|]. split; [reflexivity|].
  split; [reflexivity|]. split; [reflexivity|].
  assert (Hmode : map (fun d => ([d], mode_of d)) ds
                  = map (fun d => ([d], Some APPEND)) ds).
  { apply map_ext_in. intros d Hd. subst ds.
    apply in_app_or in Hd. rewrite !in_map_iff in Hd.
    destruct Hd as [(q & <- & _)|(t & <- & _)]; reflexivity. }
  split; [exact Hmode|]. split.
  - subst ds. rewrite length_app, !length_map, Hnq, Hnt. reflexivity.
  - intros d h0 a0. cbv zeta. rewrite deliver_run.
    unfold effects_of, actor_of. cbn [fst snd]. rewrite messages_app.
    destruct d as [i|q|t|x|b]; cbn [announced]; count_step.
    + split; [trivial | discriminate].
    + destruct ((quote_count a0 + 1) mod 100 =? 0) eqn:E.
      * apply Z.eqb_eq in E. split; [trivial | discriminate].
      * apply Z.eqb_neq in E. split; [intros C; now elim C | contradiction].
    + destruct ((trade_count a0 + 1) mod 10 =? 0) eqn:E.
      * apply Z.eqb_eq in E. split; [trivial | discriminate].
      * apply Z.eqb_neq in E. split; [intros C; now elim C | contradiction].
    + destruct ((deltas_count a0 + 1) mod 100 =? 0) eqn:E.
      * apply Z.eqb_eq in E. split; [trivial | discriminate].
      * apply Z.eqb_neq in E. split; [intros C; now elim C | contradiction].
    + split; [trivial | discriminate].
Qed.

(** An instance: 250 times the same ADA quote, then 15 times one ADA trade. *)
Lemma quotes_250_then_trades_15_witness :
  quote_count example_actor = 0 /\
  trade_count example_actor = 0 /\
  List.length (repeat ADA_quote 250) = 250%nat /\
  List.length (repeat ADA_trade 15) = 15%nat /\
  quote_samples
    (effects_of
       (feed (map DQuote (repeat ADA_quote 250)
              ++ map DTrade (repeat ADA_trade 15)) calm []
          example_actor))
  = [100; 200].
Proof.
  repeat (split; [reflexivity|]).
  destruct (quotes_250_then_trades_15 calm [] example_actor
              (repeat ADA_quote 250) (repeat ADA_trade 15)
              eq_refl eq_refl eq_refl eq_refl) as (_ & _ & Hs & _).
  exact Hs.
Defined.

(** ** Start and stop *)

Lemma calls_flat_map {A} (f : A -> list Effect) xs :
  calls (flat_map f xs) = flat_map (fun x => calls (f x)) xs.
Proof.
  induction xs as [|x xs IH]; [reflexivity|].
  cbn [flat_map]. rewrite calls_app, IH. reflexivity.
Qed.

Lemma flat_map_single {A B} (f : A -> B) xs :
  flat_map (fun x => [f x]) xs = map f xs.
Proof. induction xs as [|x xs IH]; simpl; congruence. Qed.

Lemma calls_start_script a :
  calls (start_script a)
  = subscriptions (book_type a) (instrument_ids a) (bar_types a).
Proof.
  unfold start_script, subscriptions.
  change (calls (?x :: ?l)) with (calls l).
  rewrite calls_app, !calls_flat_map, <- flat_map_single. reflexivity.
Qed.

Lemma calls_stop_script a :
  calls (stop_script a)
  = unsubscriptions (book_type a) (instrument_ids a) (bar_types a).
Proof.
  unfold stop_script, unsubscriptions.
  change (calls (?x :: ?l)) with (calls l).
  rewrite !calls_app, !calls_flat_map, <- flat_map_single.
  cbn [calls flat_map app]. rewrite app_nil_r. reflexivity.
Qed.

Lemma subscriptions_kind bt ids bs c :
  In c (subscriptions bt ids bs) -> is_subscribe c = true.
Proof.
  unfold subscriptions. intros Hc. apply in_app_or in Hc.
  destruct Hc as [Hc|Hc].
  - apply in_flat_map in Hc. destruct Hc as (i & _ & Hc). cbn in Hc.
    destruct Hc as [<-|[<-|[<-|[<-|[]]]]]; reflexivity.
  - apply in_map_iff in Hc. destruct Hc as (b & <- & _). reflexivity.
Qed.

Lemma unsubscriptions_kind bt ids bs c :
  In c (unsubscriptions bt ids bs) -> is_unsubscribe c = true.
Proof.
  unfold unsubscriptions. intros Hc. apply in_app_or in Hc.
  destruct Hc as [Hc|Hc].
  - apply in_flat_map in Hc. destruct Hc as (i & _ & Hc). cbn in Hc.
    destruct Hc as [<-|[<-|[<-|[]]]]; reflexivity.
  - apply in_map_iff in Hc. destruct Hc as (b & <- & _). reflexivity.
Qed.

(** Only calls of the script are made. *)
Lemma perform_calls host es : forall h a c,
  In c (calls (effects_of (perform es host h a))) -> In c (calls es).
Proof.
  induction es as [|x es IH]; intros h a c; [intros []|].
  destruct x as [l k m|c0]; cbn [perform]; unfold bind, emit, call.
  - specialize (IH (h ++ [Log l k m]) a c).
    destruct (perform es host _ a) as [[o a2] es2]. exact IH.
  - destruct (raises host h c0).
    + cbn. intros [<-|[]]. left. reflexivity.
    + specialize (IH (h ++ [Called c0]) a c).
      destruct (perform es host _ a) as [[o a2] es2].
      unfold effects_of in *. cbn in *. intros [<-|Hc]; auto.
Qed.




(** [on_stop] for an actor with an instrument, on a host that accepts the
    first two unsubscriptions and raises on the third. *)
Lemma on_stop_first_instrument host h a i rest e :
  instrument_ids a = i :: rest ->
  raises host (h ++ [Log INFO NORMAL MsgStopping])
    (unsubscribe_quote_ticks i) = None ->
  raises host
    (h ++ [Log INFO NORMAL MsgStopping; Called (unsubscribe_quote_ticks i)])
    (unsubscribe_trade_ticks i) = None ->
  raises host
    (h ++ [ Log INFO NORMAL MsgStopping; Called (unsubscribe_quote_ticks i);
            Called (unsubscribe_trade_ticks i) ])
    (unsubscribe_order_book_deltas i (book_type a)) = Some e ->
  on_stop host h a
  = (Raised e, a,
     [ Log INFO NORMAL MsgStopping; Called (unsubscribe_quote_ticks i);
       Called (unsubscribe_trade_ticks i);
       Called (unsubscribe_order_book_deltas i (book_type a)) ]).
Proof.
  intros Hids Hq Ht Hb. rewrite on_stop_performs. unfold stop_script.
  rewrite Hids. cbn [flat_map stop_instrument app perform].
  unfold bind, emit, call. rewrite Hq.
  rewrite <- !app_assoc. cbn [app]. rewrite Ht.
  rewrite <- !app_assoc. cbn [app]. rewrite Hb. reflexivity.
Qed.

(** [on_stop] for an actor without instruments, on a host that accepts the
    unsubscriptions from the bars. *)
Lemma on_stop_without_instruments host h a :
  instrument_ids a = [] ->
  never_raises host is_fitting_unsubscribe ->
  on_stop host h a = (Returned tt, a, stop_script a) /\
  calls (stop_script a) = map unsubscribe_bars (bar_types a).
Proof.
  intros Hids Hquiet.
  assert (Hcalls : calls (stop_script a) = map unsubscribe_bars (bar_types a))
    by (rewrite calls_stop_script; unfold unsubscriptions; rewrite Hids;
        reflexivity).
  split; [|exact Hcalls]. rewrite on_stop_performs. apply perform_quiet.
  intros h' c Hc. apply Hquiet. rewrite Hcalls in Hc.
  apply in_map_iff in Hc. destruct Hc as (b & <- & _). reflexivity.
Qed.

(** C4 (the defect).  [on_stop] sets out to cancel all subscriptions, but
    the order-book unsubscription of l.258 passes the book type where the
    framework takes the client id.  On a host that checks that argument,
    for an actor with at least one instrument and the quote and trade
    unsubscriptions of the first instrument accepted: [on_stop] raises the
    exception of that third call and ends there.  The order-book deltas of
    the first instrument, every stream of the other instruments and every
    bar stream stay subscribed, no instrument subscription is undone, and
    since the actor is left as it was, a further [on_stop] ends the same
    way. *)
Theorem on_stop_aborts_at_order_book host h a i rest :
  checks_client_id host ->
  instrument_ids a = i :: rest ->
  let said := Log INFO NORMAL MsgStopping in
  let quotes := unsubscribe_quote_ticks i in
  let trades := unsubscribe_trade_ticks i in
  let book := unsubscribe_order_book_deltas i (book_type a) in
  raises host (h ++ [said]) quotes = None ->
  raises host (h ++ [said; Called quotes]) trades = None ->
  let stop := on_stop host h a in
  (exists e,
     raises host (h ++ [said; Called quotes; Called trades]) book = Some e /\
     outcome_of stop = Raised e) /\
  actor_of stop = a /\
  effects_of stop = [said; Called quotes; Called trades; Called book] /\
  (forall b, ~ In (unsubscribe_bars b) (calls (effects_of stop))) /\
  (forall j, j <> i ->
     ~ In (unsubscribe_quote_ticks j) (calls (effects_of stop)) /\
     ~ In (unsubscribe_trade_ticks j) (calls (effects_of stop)) /\
     forall bt,
       ~ In (unsubscribe_order_book_deltas j bt) (calls (effects_of stop))).
Proof.
  intros Hchecks Hids said quotes trades book Hq Ht stop.
  subst said quotes trades book stop.
  destruct (raises host
              (h ++ [ Log INFO NORMAL MsgStopping;
                      Called (unsubscribe_quote_ticks i);
                      Called (unsubscribe_trade_ticks i) ])
              (unsubscribe_order_book_deltas i (book_type a)))
    as [e|] eqn:Hb;
    [|exfalso;
      exact (Hchecks _ (unsubscribe_order_book_deltas i (book_type a))
               eq_refl Hb)].
  rewrite (on_stop_first_instrument host h a i rest e Hids Hq Ht Hb).
  unfold outcome_of, actor_of, effects_of. cbn [fst snd calls flat_map app].
  split; [exists e; split; reflexivity|]. split; [reflexivity|].
  split; [reflexivity|]. split.
  - intros b [H|[H|[H|[]]]]; discriminate.
  - intros j Hj. repeat split.
    + intros [H|[H|[H|[]]]]; try discriminate. injection H as <-. auto.
    + intros [H|[H|[H|[]]]]; try discriminate. injection H as <-. auto.
    + intros bt [H|[H|[H|[]]]]; try discriminate. injection H as <- _. auto.
Qed.

(** The failing input: the actor of the two-instrument example, started and
    then stopped on the host that checks the client id.  [on_start] has
    issued nine subscriptions; [on_stop] raises at its third call. *)
Lemma on_stop_aborts_at_order_book_witness :
  checks_client_id type_checking /\
  instrument_ids example_actor = [ADA; LTC] /\
  outcome_of (on_start type_checking [] example_actor) = Returned tt /\
  List.length (calls (effects_of (on_start type_checking [] example_actor)))
  = 9%nat /\
  outcome_of
    (on_stop type_checking
       (effects_of (on_start type_checking [] example_actor)) example_actor)
  = Raised "TypeError: Argument 'client_id' has incorrect type" /\
  calls
    (effects_of
       (on_stop type_checking
          (effects_of (on_start type_checking [] example_actor))
          example_actor))
  = [ unsubscribe_quote_ticks ADA; unsubscribe_trade_ticks ADA;
      unsubscribe_order_book_deltas ADA L2_MBP ].
Proof.
  assert (Hchecks : checks_client_id type_checking).
  { intros h c Hc. cbn. rewrite Hc. discriminate. }
  split; [exact Hchecks|]. split; [reflexivity|]. split; [reflexivity|].
  split; [reflexivity|].
  destruct (on_stop_aborts_at_order_book type_checking
              (effects_of (on_start type_checking [] example_actor))
              example_actor ADA [LTC] Hchecks eq_refl eq_refl eq_refl)
    as ((e & He & Ho) & _ & Hes & _).
  split.
  - rewrite Ho. cbn in He. injection He as <-. reflexivity.
  - rewrite Hes. reflexivity.
Defined.

(** ** What the status report holds *)

Lemma messages_map_Log {A} level color (f : A -> Message) xs :
  messages (map (fun x => Log level color (f x)) xs) = map f xs.
Proof. induction xs as [|x xs IH]; simpl; congruence. Qed.

(** C3 (counterexample).  After three order-book-delta events the delta
    counter is 3, and the report has a line for quotes, for trades and for
    the one bar type, and none for the deltas.  And when the catalog cannot
    be queried the report holds an error line and no data type at all. *)
Lemma report_without_deltas_or_inventory :
  deltas_count
    (actor_of
       (feed [DDeltas ADA_deltas; DDeltas ADA_deltas; DDeltas ADA_deltas]
          calm [] example_actor)) = 3 /\
  messages
    (effects_of
       (_log_status calm []
          (actor_of
             (feed [DDeltas ADA_deltas; DDeltas ADA_deltas; DDeltas ADA_deltas]
                calm [] example_actor))))
  = [ MsgStatusHeader 1700000000; MsgStatusQuotes 0; MsgStatusTrades 0;
      MsgStatusBars "ADAUSDT-PERP.BINANCE-1-MINUTE-LAST-EXTERNAL" 0;
      MsgCatalogTypes [Class "QuoteTick"; Other "custom"];
      MsgCatalogType "QuoteTick"; MsgCatalogType "custom" ] /\
  messages (effects_of (_log_status catalog_down [] example_actor))
  = [ MsgStatusHeader 1700000000; MsgStatusQuotes 0; MsgStatusTrades 0;
      MsgStatusBars "ADAUSDT-PERP.BINANCE-1-MINUTE-LAST-EXTERNAL" 0;
      MsgCatalogError "catalog unavailable" ].
Proof. repeat split; reflexivity. Qed.

(** C3 (as amended).  [_log_status] always returns normally, and its
    messages are, in this order: the header with the time, the quote counter,
    the trade counter, one line per entry of [bar_counts] with its bar-type
    string and its count, and then, when the catalog answers the inventory
    query, the list of its data types and one line per data type with its
    name, or, when the query raises, one error line with the exception. *)
Theorem status_report_contents host h a :
  let r := _log_status host h a in
  outcome_of r = Returned tt /\
  messages (effects_of r)
  = MsgStatusHeader (datetime_now host h)
    :: MsgStatusQuotes (quote_count a)
    :: MsgStatusTrades (trade_count a)
    :: map (fun kv => MsgStatusBars (fst kv) (snd kv))
         (Dict.items (bar_counts a))
    ++ match inventory host (query_moment host h a) with
       | inr data_types =>
           MsgCatalogTypes data_types
           :: map (fun d => MsgCatalogType (type_name d)) data_types
       | inl e => [MsgCatalogError e]
       end.
Proof.
  cbv zeta. rewrite log_status_run.
  unfold outcome_of, effects_of. cbn [fst snd]. split; [reflexivity|].
  unfold report, counter_lines.
  change (messages (?x :: ?y :: ?z :: ?l))
    with (messages [x; y; z] ++ messages l).
  cbn [messages flat_map app].
  change (flat_map (fun e => match e with
                             | Log _ _ m => [m]
                             | Called _ => []
                             end)) with messages.
  rewrite messages_app, messages_map_Log. do 4 f_equal.
  change (messages (?x :: ?l)) with (messages l).
  destruct (inventory host (query_moment host h a)) as [e|dts];
    [reflexivity|].
  cbn [inventory_lines].
  change (messages (?x :: ?l)) with (messages [x] ++ messages l).
  rewrite messages_map_Log. reflexivity.
Qed.

(** C9 (counterexample).  Two reports in a row, with no event in between, on
    a host whose clock has advanced: the headers differ, so the reports are
    not identical. *)
Lemma reports_in_a_row_differ_in_time :
  messages (effects_of (_log_status calm [] example_actor))
  = [ MsgStatusHeader 1700000000; MsgStatusQuotes 0; MsgStatusTrades 0;
      MsgStatusBars "ADAUSDT-PERP.BINANCE-1-MINUTE-LAST-EXTERNAL" 0;
      MsgCatalogTypes [Class "QuoteTick"; Other "custom"];
      MsgCatalogType "QuoteTick"; MsgCatalogType "custom" ] /\
  messages
    (effects_of
       (_log_status calm (effects_of (_log_status calm [] example_actor))
          (actor_of (_log_status calm [] example_actor))))
  = [ MsgStatusHeader 1700000008; MsgStatusQuotes 0; MsgStatusTrades 0;
      MsgStatusBars "ADAUSDT-PERP.BINANCE-1-MINUTE-LAST-EXTERNAL" 0;
      MsgCatalogTypes [Class "QuoteTick"; Other "custom"];
      MsgCatalogType "QuoteTick"; MsgCatalogType "custom" ].
Proof. split; reflexivity. Qed.

(** C9 (as amended).  [_log_status] returns normally and leaves every field
    of the actor as it was.  Its report is the header, which prints the
    current time, followed by lines that depend only on the quote, trade and
    bar counters and on the answer of the catalog: called twice with no event
    in between, and the catalog answering the same, the two reports are the
    same after their headers, and the same altogether when the clock reads
    the same. *)
Theorem status_report_repeatable host h a :
  let r1 := _log_status host h a in
  let h1 := h ++ effects_of r1 in
  let r2 := _log_status host h1 (actor_of r1) in
  inventory host (query_moment host h a)
  = inventory host (query_moment host h1 a) ->
  outcome_of r1 = Returned tt /\
  outcome_of r2 = Returned tt /\
  actor_of r1 = a /\
  actor_of r2 = a /\
  hd_error (effects_of r1)
  = Some (Log INFO YELLOW (MsgStatusHeader (datetime_now host h))) /\
  hd_error (effects_of r2)
  = Some (Log INFO YELLOW (MsgStatusHeader (datetime_now host h1))) /\
  tl (effects_of r1) = tl (effects_of r2) /\
  (datetime_now host h = datetime_now host h1 ->
   effects_of r1 = effects_of r2).
Proof.
  cbv zeta. rewrite !log_status_run.
  unfold outcome_of, actor_of, effects_of. cbn [fst snd].
  rewrite ?log_status_run. cbn [fst snd].
  intros Hsame. rewrite <- Hsame.
  repeat split. intros Hclock. rewrite <- Hclock. reflexivity.
Qed.

(** An instance: a catalog that always lists the same two data types. *)
Lemma status_report_repeatable_witness :
  inventory calm (query_moment calm [] example_actor)
  = inventory calm
      (query_moment calm
         ([] ++ effects_of (_log_status calm [] example_actor))
         example_actor) /\
  tl (effects_of (_log_status calm [] example_actor))
  = tl (effects_of
          (_log_status calm
             ([] ++ effects_of (_log_status calm [] example_actor))
             (actor_of (_log_status calm [] example_actor)))).
Proof.
  split; [reflexivity|].
  destruct (status_report_repeatable calm [] example_actor eq_refl)
    as (_ & _ & _ & _ & _ & _ & Ht & _).
  exact Ht.
Defined.

(** * Further properties of the actor *)

(** ** Counters and rosters over a feed *)

Lemma number_nonneg p ds : 0 <= number p ds.
Proof. unfold number. lia. Qed.

(** X1.  Whatever the actor's state and whatever the host does, a feed makes
    each counter grow by exactly the number of events of its category (of
    its bar-type string, for a bar counter): no counter ever decreases, and
    instrument events move none. *)
Theorem feed_counters_grow host ds h a :
  let a' := actor_of (feed ds host h a) in
  quote_count a' = quote_count a + number is_quote ds /\
  trade_count a' = trade_count a + number is_trade ds /\
  deltas_count a' = deltas_count a + number is_deltas ds /\
  (forall k,
     Dict.get_default (bar_counts a') k 0
     = Dict.get_default (bar_counts a) k 0 + number (is_bar_of k) ds) /\
  quote_count a <= quote_count a' /\
  trade_count a <= trade_count a' /\
  deltas_count a <= deltas_count a' /\
  (forall k,
     Dict.get_default (bar_counts a) k 0
     <= Dict.get_default (bar_counts a') k 0).
Proof.
  cbv zeta. destruct (feed_run host ds h a) as (-> & _ & _).
  rewrite fed_quote_count, fed_trade_count, fed_deltas_count.
  pose proof (number_nonneg is_quote ds).
  pose proof (number_nonneg is_trade ds).
  pose proof (number_nonneg is_deltas ds).
  repeat split; try lia.
  - intros k. apply fed_bar_count.
  - intros k. rewrite fed_bar_count.
    pose proof (number_nonneg (is_bar_of k) ds). lia.
Qed.

Lemma counted_roster d a :
  config (counted d a) = config a /\
  book_count (counted d a) = book_count a /\
  book_type (counted d a) = book_type a /\
  _book (counted d a) = _book a /\
  bar_types (counted d a) = bar_types a /\
  instrument_ids (counted d a) = instrument_ids a.
Proof. destruct d; repeat split. Qed.

Lemma fed_keeps_roster ds : forall a,
  config (fed ds a) = config a /\
  book_count (fed ds a) = book_count a /\
  book_type (fed ds a) = book_type a /\
  _book (fed ds a) = _book a /\
  bar_types (fed ds a) = bar_types a /\
  instrument_ids (fed ds a) = instrument_ids a.
Proof.
  induction ds as [|d ds IH]; intros a; [repeat split|].
  cbn [fed fold_left]. fold (fed ds (counted d a)).
  destruct (IH (counted d a)) as (-> & -> & -> & -> & -> & ->).
  apply counted_roster.
Qed.

(** A script does the same whatever the actor it is run on. *)
Lemma perform_same host es : forall h a b,
  outcome_of (perform es host h a) = outcome_of (perform es host h b) /\
  effects_of (perform es host h a) = effects_of (perform es host h b).
Proof.
  induction es as [|[l c m|c] es IH]; intros h a b;
    cbn [perform]; unfold bind, emit, call, ret; [split; reflexivity| |].
  - destruct (IH (h ++ [Log l c m]) a b) as (Ho & He).
    destruct (perform es host _ a) as [[o1 a1] es1].
    destruct (perform es host _ b) as [[o2 a2] es2].
    unfold outcome_of, effects_of in *. cbn [fst snd] in *.
    split; congruence.
  - destruct (raises host h c); [split; reflexivity|].
    destruct (IH (h ++ [Called c]) a b) as (Ho & He).
    destruct (perform es host _ a) as [[o1 a1] es1].
    destruct (perform es host _ b) as [[o2 a2] es2].
    unfold outcome_of, effects_of in *. cbn [fst snd] in *.
    split; congruence.
Qed.

(** X2.  No callback assigns the configuration, the rosters of instruments
    and bar types, the book type, the (unused) order-book counter or the
    book list: after any feed they are what they were, so [on_start] and
    [on_stop] behave after the feed exactly as they would have before it. *)
Theorem feed_keeps_rosters host ds h a :
  let a' := actor_of (feed ds host h a) in
  config a' = config a /\
  instrument_ids a' = instrument_ids a /\
  bar_types a' = bar_types a /\
  book_type a' = book_type a /\
  book_count a' = book_count a /\
  _book a' = _book a /\
  (forall h',
     outcome_of (on_start host h' a') = outcome_of (on_start host h' a) /\
     effects_of (on_start host h' a') = effects_of (on_start host h' a) /\
     outcome_of (on_stop host h' a') = outcome_of (on_stop host h' a) /\
     effects_of (on_stop host h' a') = effects_of (on_stop host h' a)).
Proof.
  cbv zeta. destruct (feed_run host ds h a) as (-> & _ & _).
  destruct (fed_keeps_roster ds a) as (Hc & Hn & Ht & Hb & Hbs & Hi).
  repeat split; try assumption; rewrite !on_start_performs ||
    rewrite !on_stop_performs.
  all: unfold start_script, stop_script; rewrite Hc, Ht, Hbs, Hi.
  all: apply perform_same.
Qed.

(** ** Construction *)

Lemma calls_map_Log {A} level color (f : A -> Message) xs :
  calls (map (fun x => Log level color (f x)) xs) = [].
Proof. induction xs as [|x xs IH]; [reflexivity | exact IH]. Qed.

(** X3.  The constructor raises exactly when creating the directory or
    opening the catalog raises, and then it has parsed nothing, logged
    nothing and assigned no field; an entry that does not parse never makes
    it raise.  When it returns it has made those two calls and no other,
    and has logged the errors of the bar types before those of the
    instruments. *)
Theorem constructor_raises_only_on_setup host cfg h :
  let r := __init__ host h (new_actor cfg) in
  let path := catalog_path cfg in
  (forall e,
     outcome_of r = Raised e <->
     raises host h (makedirs path) = Some e \/
     (raises host h (makedirs path) = None /\
      raises host (h ++ [Called (makedirs path)]) (ParquetDataCatalog path)
      = Some e)) /\
  (forall e,
     outcome_of r = Raised e ->
     actor_of r = new_actor cfg /\ messages (effects_of r) = []) /\
  (outcome_of r = Returned tt ->
   calls (effects_of r) = [makedirs path; ParquetDataCatalog path] /\
   messages (effects_of r)
   = map (fun se => MsgBarTypeParseError (fst se) (snd se))
       (skipped (BarType_from_str host) (cfg_bar_types cfg))
     ++ map (fun se => MsgInstrumentParseError (fst se) (snd se))
          (skipped (InstrumentId_from_str host) (cfg_instrument_ids cfg))).
Proof.
  cbv zeta. rewrite init_run.
  destruct (raises host h (makedirs (catalog_path cfg))) as [e1|] eqn:E1.
  { unfold outcome_of, actor_of, effects_of. cbn [fst snd].
    split; [|split].
    - intros e. split.
      + intros [= ->]. left. reflexivity.
      + intros [[= ->]|[[=] _]]. reflexivity.
    - intros e _. split; reflexivity.
    - discriminate. }
  destruct (raises host _ (ParquetDataCatalog (catalog_path cfg)))
    as [e2|] eqn:E2.
  { unfold outcome_of, actor_of, effects_of. cbn [fst snd].
    split; [|split].
    - intros e. split.
      + intros [= ->]. right. split; reflexivity.
      + intros [[=]|[_ [= ->]]]. reflexivity.
    - intros e _. split; reflexivity.
    - discriminate. }
  unfold outcome_of, actor_of, effects_of. cbn [fst snd].
  split; [|split].
  - intros e. split; [discriminate|]. intros [[=]|[_ [=]]].
  - discriminate.
  - intros _. unfold init_errors. split.
    + change (calls (Called ?x :: Called ?y :: ?l)) with (x :: y :: calls l).
      rewrite calls_app, !calls_map_Log. reflexivity.
    + change (messages (?x :: ?y :: ?l)) with (messages l).
      rewrite messages_app, !messages_map_Log. reflexivity.
Qed.

(** ** The keys of the bar counters *)

Lemma Dict_set_keys {V} (d : Dict.t V) k v :
  (In k (map fst d) -> map fst (Dict.set d k v) = map fst d) /\
  (~ In k (map fst d) -> map fst (Dict.set d k v) = map fst d ++ [k]).
Proof.
  induction d as [|[k0 v0] d [IHin IHout]]; cbn [Dict.set map fst In app].
  - split; [intros [] | reflexivity].
  - destruct (String.eqb k0 k) eqn:E; cbn [map fst].
    + apply String.eqb_eq in E. subst k0. split; [reflexivity|].
      intros Hout. exfalso. apply Hout. left. reflexivity.
    + apply String.eqb_neq in E. split.
      * intros [Heq|Hin]; [contradiction|]. rewrite IHin by assumption.
        reflexivity.
      * intros Hout. rewrite IHout; [reflexivity|].
        intros Hin. apply Hout. right. assumption.
Qed.

Lemma Dict_set_keys_In {V} (d : Dict.t V) k v k' :
  In k' (map fst (Dict.set d k v)) <-> In k' (map fst d) \/ k' = k.
Proof.
  destruct (in_dec string_dec k (map fst d)) as [Hin|Hout].
  - rewrite (proj1 (Dict_set_keys d k v) Hin). split; [auto|].
    intros [H| ->]; assumption.
  - rewrite (proj2 (Dict_set_keys d k v) Hout), in_app_iff. cbn [In].
    split.
    + intros [H|[<-|[]]]; auto.
    + intros [H| ->]; auto.
Qed.

Lemma Dict_set_keys_NoDup {V} (d : Dict.t V) k v :
  NoDup (map fst d) -> NoDup (map fst (Dict.set d k v)).
Proof.
  intros Hnd. destruct (in_dec string_dec k (map fst d)) as [Hin|Hout].
  - rewrite (proj1 (Dict_set_keys d k v) Hin). assumption.
  - rewrite (proj2 (Dict_set_keys d k v) Hout).
    apply NoDup_app; [assumption | repeat constructor; intros [] | ].
    intros x Hx [<-|[]]. contradiction.
Qed.

Lemma Dict_set_keys_prefix {V} (d : Dict.t V) k v :
  exists new, map fst (Dict.set d k v) = map fst d ++ new.
Proof.
  destruct (in_dec string_dec k (map fst d)) as [Hin|Hout].
  - exists []. rewrite (proj1 (Dict_set_keys d k v) Hin), app_nil_r.
    reflexivity.
  - exists [k]. apply (proj2 (Dict_set_keys d k v) Hout).
Qed.

Lemma Dict_set_values {V} (d : Dict.t V) k v k' v' :
  In (k', v') (Dict.set d k v) -> (k' = k /\ v' = v) \/ In (k', v') d.
Proof.
  induction d as [|[k0 v0] d IH]; cbn [Dict.set In].
  - intros [[= <- <-]|[]]. left. split; reflexivity.
  - destruct (String.eqb k0 k) eqn:E; cbn [In].
    + apply String.eqb_eq in E. subst k0.
      intros [[= <- <-]|H]; [left; split; reflexivity | right; right; exact H].
    + intros [H|H]; [right; left; exact H|].
      destruct (IH H) as [?|?]; [left; assumption | right; right; assumption].
Qed.

Lemma zeroed_keys keys : forall d,
  (NoDup (map fst d) -> NoDup (map fst (zeroed keys d))) /\
  (forall k, In k (map fst (zeroed keys d)) <-> In k (map fst d) \/ In k keys)
  /\
  (forall k v,
     In (k, v) (zeroed keys d) -> v = 0 \/ In (k, v) d).
Proof.
  induction keys as [|k0 keys IH]; intros d; cbn [zeroed fold_left].
  - split; [auto|]. split; [intros k; cbn; tauto | auto].
  - fold (zeroed keys (Dict.set d k0 0)).
    destruct (IH (Dict.set d k0 0)) as (Hnd & Hin & Hval).
    split; [|split].
    + intros H. apply Hnd, Dict_set_keys_NoDup, H.
    + intros k. rewrite Hin, Dict_set_keys_In. cbn. intuition.
    + intros k v H. destruct (Hval k v H) as [?|H']; [auto|].
      destruct (Dict_set_values _ _ _ _ _ H') as [[_ ->]|?]; auto.
Qed.

Lemma resolved_accepted_length {A} (p : string -> Exn + A) raw :
  List.length (resolved p raw) = List.length (accepted p raw).
Proof.
  induction raw as [|s raw IH]; [reflexivity|].
  cbn [resolved accepted flat_map filter].
  destruct (p s); cbn [app List.length]; [exact IH | f_equal; exact IH].
Qed.

Lemma constructed_bar_keys host cfg :
  let parsed := accepted (BarType_from_str host) (cfg_bar_types cfg) in
  NoDup (bar_keys (constructed host cfg)) /\
  (forall k, In k (bar_keys (constructed host cfg)) <-> In k parsed) /\
  (forall k v,
     In (k, v) (Dict.items (bar_counts (constructed host cfg))) -> v = 0).
Proof.
  intros parsed. unfold bar_keys, Dict.items. cbn [constructed bar_counts].
  destruct (zeroed_keys parsed (@Dict.empty Z)) as (Hnd & Hin & Hval).
  repeat split.
  - apply Hnd. constructor.
  - intros H. apply Hin in H. destruct H as [[]|H]. exact H.
  - intros H. apply Hin. right. exact H.
  - intros k v H. destruct (Hval k v H) as [?|[]]. assumption.
Qed.

(** X4.  When the constructor returns, every counter is zero and the book
    type is L2_MBP; [bar_counts] has exactly one entry, with value 0, for
    each distinct configured bar-type string that parses, while [bar_types]
    has one handle per parsed entry, repeated entries included. *)
Theorem constructor_zeroes_counters host cfg h :
  outcome_of (__init__ host h (new_actor cfg)) = Returned tt ->
  let a := actor_of (__init__ host h (new_actor cfg)) in
  let parsed := accepted (BarType_from_str host) (cfg_bar_types cfg) in
  quote_count a = 0 /\ trade_count a = 0 /\ deltas_count a = 0 /\
  book_count a = 0 /\ book_type a = L2_MBP /\
  NoDup (bar_keys a) /\
  (forall k, In k (bar_keys a) <-> In k parsed) /\
  (forall k v, In (k, v) (Dict.items (bar_counts a)) -> v = 0) /\
  List.length (bar_types a) = List.length parsed.
Proof.
  intros Hinit a parsed. subst a. rewrite (init_returned _ _ _ Hinit).
  destruct (constructed_bar_keys host cfg) as (Hnd & Hin & Hval).
  repeat split; try reflexivity; try assumption.
  - apply Hin.
  - apply Hin.
  - apply resolved_accepted_length.
Qed.

(** An instance: one bar type that parses, one that does not. *)
Lemma constructor_zeroes_counters_witness :
  outcome_of (__init__ calm [] (new_actor example_config)) = Returned tt /\
  bar_keys (actor_of (__init__ calm [] (new_actor example_config)))
  = ["ADAUSDT-PERP.BINANCE-1-MINUTE-LAST-EXTERNAL"] /\
  NoDup (bar_keys (actor_of (__init__ calm [] (new_actor example_config)))).
Proof.
  split; [reflexivity|]. split; [reflexivity|].
  destruct (constructor_zeroes_counters calm example_config [] eq_refl)
    as (_ & _ & _ & _ & _ & Hnd & _).
  exact Hnd.
Defined.

Lemma counted_bar_keys d a :
  (exists new, bar_keys (counted d a) = bar_keys a ++ new) /\
  (NoDup (bar_keys a) -> NoDup (bar_keys (counted d a))) /\
  (forall k,
     In k (bar_keys (counted d a))
     <-> In k (bar_keys a) \/ In k (bar_strings [d])).
Proof.
  unfold bar_keys, Dict.items.
  destruct d as [i|t|t|x|b]; cbn [counted bar_counts set_bar_counts
                                    bar_strings flat_map app].
  1-4: split; [exists []; rewrite app_nil_r; reflexivity|];
       split; [auto | intros k; cbn; tauto].
  split; [apply Dict_set_keys_prefix|]. split; [apply Dict_set_keys_NoDup|].
  intros k. rewrite Dict_set_keys_In. cbn. intuition.
Qed.

Lemma fed_bar_keys ds : forall a,
  (exists new, bar_keys (fed ds a) = bar_keys a ++ new) /\
  (NoDup (bar_keys a) -> NoDup (bar_keys (fed ds a))) /\
  (forall k,
     In k (bar_keys (fed ds a)) <-> In k (bar_keys a) \/ In k (bar_strings ds)).
Proof.
  induction ds as [|d ds IH]; intros a.
  - cbn. split; [exists []; rewrite app_nil_r; reflexivity|].
    split; [auto | intros k; tauto].
  - cbn [fed fold_left]. fold (fed ds (counted d a)).
    destruct (IH (counted d a)) as ((new2 & Hpre2) & Hnd2 & Hin2).
    destruct (counted_bar_keys d a) as ((new1 & Hpre1) & Hnd1 & Hin1).
    split; [|split].
    + exists (new1 ++ new2). rewrite Hpre2, Hpre1, app_assoc. reflexivity.
    + auto.
    + intros k. rewrite Hin2, Hin1.
      replace (bar_strings (d :: ds))
        with (bar_strings [d] ++ bar_strings ds)
        by (unfold bar_strings; cbn [flat_map]; rewrite app_nil_r;
            reflexivity).
      rewrite in_app_iff. tauto.
Qed.

(** X5.  Over any feed the entries of [bar_counts] keep their order: the
    keys after the feed are the keys before it followed by new ones, the new
    ones being the bar-type strings of the bars that had no entry; no key is
    ever removed or repeated. *)
Theorem feed_extends_bar_keys host ds h a :
  let a' := actor_of (feed ds host h a) in
  (exists new, bar_keys a' = bar_keys a ++ new) /\
  (NoDup (bar_keys a) -> NoDup (bar_keys a')) /\
  (forall k, In k (bar_keys a') <-> In k (bar_keys a) \/ In k (bar_strings ds)).
Proof.
  cbv zeta. destruct (feed_run host ds h a) as (-> & _ & _).
  apply fed_bar_keys.
Qed.

(** ** Messages and writes of a feed *)

Lemma deltas_samples_app es1 es2 :
  deltas_samples (es1 ++ es2) = deltas_samples es1 ++ deltas_samples es2.
Proof. unfold deltas_samples. rewrite messages_app. apply flat_map_app. Qed.

Lemma bar_numbers_app k es1 es2 :
  bar_numbers k (es1 ++ es2) = bar_numbers k es1 ++ bar_numbers k es2.
Proof. unfold bar_numbers. rewrite messages_app. apply flat_map_app. Qed.

Lemma fed_deltas_samples ds : forall a,
  deltas_samples (fed_effects ds a) =
  multiples 100 (deltas_count a + 1) (List.length (filter is_deltas ds)).
Proof.
  induction ds as [|d ds IH]; intros a; [reflexivity|].
  cbn [fed_effects]. rewrite !deltas_samples_app, IH.
  destruct d as [i|t|t|x|b]; cbn [filter is_deltas announced]; count_step;
    unfold multiples; cbn [List.length Zrange filter];
    split_sample; reflexivity.
Qed.

Lemma fed_bar_numbers k ds : forall a,
  bar_numbers k (fed_effects ds a) =
  Zrange (Dict.get_default (bar_counts a) k 0 + 1)
    (List.length (filter (is_bar_of k) ds)).
Proof.
  induction ds as [|d ds IH]; intros a; [reflexivity|].
  cbn [fed_effects]. rewrite !bar_numbers_app, IH.
  destruct d as [i|t|t|x|b]; cbn [filter is_bar_of announced]; count_step;
    try (split_sample; reflexivity).
  unfold bar_numbers at 1 2. cbn [messages flat_map app].
  destruct (String.eqb (bar_type_str (bar_type b)) k) eqn:E.
  - apply String.eqb_eq in E. subst k.
    rewrite Dict_get_default_set_same. reflexivity.
  - apply String.eqb_neq in E.
    rewrite Dict_get_default_set_other by assumption. reflexivity.
Qed.

(** X6.  Over any feed, from any state and whatever the host does: the
    sampled quote messages carry exactly the multiples of 100 among the
    values the quote counter takes, the sampled trade messages the multiples
    of 10 of the trade counter, the sampled order-book messages the
    multiples of 100 of the delta counter; and every bar is logged, the bars
    of one bar-type string being numbered consecutively from that string's
    count, independently of the other bar types. *)
Theorem feed_messages_follow_cadence host ds h a :
  let es := effects_of (feed ds host h a) in
  quote_samples es
  = multiples 100 (quote_count a + 1) (List.length (filter is_quote ds)) /\
  trade_samples es
  = multiples 10 (trade_count a + 1) (List.length (filter is_trade ds)) /\
  deltas_samples es
  = multiples 100 (deltas_count a + 1)
      (List.length (filter is_deltas ds)) /\
  (forall k,
     bar_numbers k es
     = Zrange (Dict.get_default (bar_counts a) k 0 + 1)
         (List.length (filter (is_bar_of k) ds))).
Proof.
  cbv zeta. destruct (feed_run host ds h a) as (_ & -> & _).
  rewrite fed_quote_samples, fed_trade_samples, fed_deltas_samples.
  repeat split. intros k. apply fed_bar_numbers.
Qed.

Lemma fed_calls ds : forall a,
  calls (fed_effects ds a) = map (fun d => write_data [d] (mode_of d)) ds.
Proof.
  induction ds as [|d ds IH]; intros a; [reflexivity|].
  cbn [fed_effects map]. rewrite !calls_app, IH, calls_announced.
  reflexivity.
Qed.

(** X7.  Over any feed, whatever the host does, the calls the callbacks make
    are the writes and nothing else: one per event, in delivery order, each
    with the one event as its batch, also after a write that raised. *)
Theorem feed_writes_in_delivery_order host ds h a :
  calls (effects_of (feed ds host h a))
  = map (fun d => write_data [d] (mode_of d)) ds /\
  writes (effects_of (feed ds host h a))
  = map (fun d => ([d], mode_of d)) ds.
Proof.
  destruct (feed_run host ds h a) as (_ & -> & _).
  split; [apply fed_calls | apply fed_writes].
Qed.

Lemma feed_outcomes host ds : forall h a,
  (never_raises host is_write ->
   outcome_of (feed ds host h a) = map (fun _ => Returned tt) ds) /\
  (forall e,
     In (Raised e) (outcome_of (feed ds host h a)) ->
     exists h' d,
       In d ds /\ raises host h' (write_data [d] (mode_of d)) = Some e).
Proof.
  induction ds as [|d ds IH]; intros h a.
  - split; [reflexivity | intros e []].
  - cbn [feed]. rewrite deliver_run.
    destruct (IH (h ++ announced d (counted d a)
                    ++ [Called (write_data [d] (mode_of d))]) (counted d a))
      as (IHq & IHr).
    destruct (feed ds host _ (counted d a)) as [[os a2] es2].
    unfold outcome_of in *. cbn [fst snd map] in *. split.
    + intros Hq. rewrite (IHq Hq). unfold answered.
      rewrite Hq by reflexivity. reflexivity.
    + intros e [He|He].
      * unfold answered in He.
        destruct (raises host _ (write_data [d] (mode_of d))) as [e'|] eqn:E;
          [|discriminate].
        injection He as ->. eexists _, d. split; [left; reflexivity|].
        exact E.
      * destruct (IHr e He) as (h' & d' & Hd' & Hr).
        exists h', d'. split; [right; exact Hd' | exact Hr].
Qed.

(** X8.  No callback raises an exception of its own, whatever the events and
    the state (in particular no [KeyError] from [bar_counts]): a delivery
    raises only what the catalog raised on a write, so every delivery
    returns when the catalog accepts the writes, and each delivery has an
    outcome of its own. *)
Theorem callbacks_raise_only_write_errors host ds h a :
  List.length (outcome_of (feed ds host h a)) = List.length ds /\
  (never_raises host is_write ->
   outcome_of (feed ds host h a) = map (fun _ => Returned tt) ds) /\
  (forall e,
     In (Raised e) (outcome_of (feed ds host h a)) ->
     exists h' d,
       In d ds /\ raises host h' (write_data [d] (mode_of d)) = Some e).
Proof.
  destruct (feed_run host ds h a) as (_ & _ & Hlen).
  destruct (feed_outcomes host ds h a) as (Hq & Hr).
  split; [exact Hlen|]. split; assumption.
Qed.

(** ** The report after a feed *)

Lemma Dict_get_default_In {V} (d : Dict.t V) k x :
  In k (map fst d) -> In (k, Dict.get_default d k x) d.
Proof.
  unfold Dict.get_default.
  induction d as [|[k0 v0] d IH]; cbn [map fst In Dict.get]; [intros []|].
  destruct (String.eqb k0 k) eqn:E.
  - apply String.eqb_eq in E. subst k0. intros _. left. reflexivity.
  - apply String.eqb_neq in E. intros [H|H]; [contradiction|].
    right. apply IH, H.
Qed.

Lemma Dict_In_get {V} (d : Dict.t V) k v :
  NoDup (map fst d) -> In (k, v) d -> Dict.get d k = Some v.
Proof.
  induction d as [|[k0 v0] d IH]; cbn [map fst In Dict.get]; [intros _ []|].
  intros Hnd [[= -> ->]|Hin].
  - rewrite String.eqb_refl. reflexivity.
  - inversion Hnd as [|? ? Hout Hnd']. subst.
    destruct (String.eqb k0 k) eqn:E.
    + apply String.eqb_eq in E. subst k0. exfalso. apply Hout.
      apply (in_map fst) in Hin. exact Hin.
    + apply IH; assumption.
Qed.

Lemma report_messages now a answer :
  messages (report now a answer)
  = MsgStatusHeader now
    :: MsgStatusQuotes (quote_count a)
    :: MsgStatusTrades (trade_count a)
    :: map (fun kv => MsgStatusBars (fst kv) (snd kv))
         (Dict.items (bar_counts a))
    ++ messages (inventory_lines answer).
Proof.
  unfold report, counter_lines. cbn [app].
  change (messages (Log ?l1 ?c1 ?x :: Log ?l2 ?c2 ?y :: Log ?l3 ?c3 ?z :: ?l))
    with (x :: y :: z :: messages l).
  rewrite messages_app, messages_map_Log. reflexivity.
Qed.

Lemma inventory_lines_no_bars answer k n :
  ~ In (MsgStatusBars k n) (messages (inventory_lines answer)).
Proof.
  destruct answer as [e|dts]; cbn [inventory_lines].
  - intros [H|[]]. discriminate.
  - change (messages (Log ?l ?c ?x :: ?r)) with (x :: messages r).
    rewrite messages_map_Log. intros [H|H]; [discriminate|].
    apply in_map_iff in H. destruct H as (d & H & _). discriminate.
Qed.

(** X9.  A report made after any feed from a freshly constructed actor shows
    the number of quotes and the number of trades of the feed, and exactly
    one bar line for every bar-type string that was configured (and parsed)
    or seen on a bar, with the number of bars of that string: 0 for a
    configured type without bars.  No other bar line appears. *)
Theorem report_after_feed host cfg h0 ds h h' :
  outcome_of (__init__ host h0 (new_actor cfg)) = Returned tt ->
  let a0 := actor_of (__init__ host h0 (new_actor cfg)) in
  let a1 := actor_of (feed ds host h a0) in
  let ms := messages (effects_of (_log_status host h' a1)) in
  In (MsgStatusQuotes (number is_quote ds)) ms /\
  In (MsgStatusTrades (number is_trade ds)) ms /\
  (forall k n,
     In (MsgStatusBars k n) ms <->
     (In k (accepted (BarType_from_str host) (cfg_bar_types cfg))
      \/ In k (bar_strings ds))
     /\ n = number (is_bar_of k) ds) /\
  NoDup (flat_map (fun m => match m with
                            | MsgStatusBars k _ => [k]
                            | _ => []
                            end) ms).
Proof.
  intros Hinit. cbv zeta. rewrite (init_returned _ _ _ Hinit).
  set (a0 := constructed host cfg).
  set (a1 := actor_of (feed ds host h a0)).
  destruct (constructed_bar_keys host cfg) as (Hnd0 & Hkeys0 & Hval0).
  fold a0 in Hnd0, Hkeys0, Hval0.
  destruct (feed_run host ds h a0) as (Ha1 & _ & _). fold a1 in Ha1.
  assert (Hq1 : quote_count a1 = number is_quote ds)
    by (rewrite Ha1, fed_quote_count; reflexivity).
  assert (Ht1 : trade_count a1 = number is_trade ds)
    by (rewrite Ha1, fed_trade_count; reflexivity).
  assert (Hb1 : forall k,
             Dict.get_default (bar_counts a1) k 0 = number (is_bar_of k) ds).
  { intros k. rewrite Ha1, fed_bar_count. subst a0.
    rewrite constructed_bar_count. reflexivity. }
  destruct (fed_bar_keys ds a0) as (_ & Hnd1 & Hkeys1). rewrite <- Ha1 in *.
  specialize (Hnd1 Hnd0).
  rewrite log_status_run. unfold effects_of. cbn [snd].
  rewrite report_messages, Hq1, Ht1.
  split; [right; left; reflexivity|].
  split; [right; right; left; reflexivity|]. split.
  - intros k n. cbn [In]. rewrite in_app_iff, in_map_iff. split.
    + intros [H|[H|[H|[((k', n') & [= <- <-] & Hin)|H]]]];
        try discriminate;
        [|exfalso; eapply inventory_lines_no_bars; exact H].
      cbn [fst snd]. split.
      * apply (in_map fst) in Hin. apply Hkeys1 in Hin.
        rewrite <- Hkeys0. exact Hin.
      * rewrite <- Hb1. unfold Dict.get_default, Dict.items in *.
        rewrite (Dict_In_get (bar_counts a1) _ _ Hnd1 Hin). reflexivity.
    + intros (Hk & ->). do 3 right. left.
      exists (k, Dict.get_default (bar_counts a1) k 0). split.
      * cbn [fst snd]. rewrite Hb1. reflexivity.
      * apply Dict_get_default_In. apply Hkeys1.
        rewrite Hkeys0. exact Hk.
  - cbn [flat_map app]. rewrite flat_map_app.
    replace (flat_map _ (messages (inventory_lines _))) with (@nil string).
    + rewrite app_nil_r, flat_map_concat_map, map_map.
      cbn [fst snd]. rewrite <- flat_map_concat_map, flat_map_single.
      exact Hnd1.
    + destruct (inventory host _) as [e|dts]; [reflexivity|].
      cbn [inventory_lines].
      change (messages (Log ?l ?c ?x :: ?r)) with (x :: messages r).
      rewrite messages_map_Log. cbn [flat_map app].
      induction dts as [|d dts IH]; [reflexivity | exact IH].
Qed.

(** ** What each method calls *)

Lemma calls_report now a answer :
  calls (report now a answer) = [list_data_types].
Proof.
  unfold report, counter_lines. cbn [app].
  change (calls (Log ?l1 ?c1 ?x :: Log ?l2 ?c2 ?y :: Log ?l3 ?c3 ?z :: ?l))
    with (calls l).
  rewrite calls_app, calls_map_Log.
  change (calls (Called ?c :: ?l)) with (c :: calls l). cbn [app]. f_equal.
  destruct answer as [e|dts]; [reflexivity|]. cbn [inventory_lines].
  change (calls (Log ?l ?c ?x :: ?r)) with (calls r).
  apply calls_map_Log.
Qed.

(** X10.  Whatever the host does, [on_start] makes subscribe calls only and
    [on_stop] unsubscribe calls only (it never writes to or flushes the
    catalog), and [_log_status] makes exactly one call, the inventory query:
    reporting never writes. *)
Theorem methods_keep_to_their_calls host h a :
  Forall (fun c => is_subscribe c = true)
    (calls (effects_of (on_start host h a))) /\
  Forall (fun c => is_unsubscribe c = true)
    (calls (effects_of (on_stop host h a))) /\
  calls (effects_of (_log_status host h a)) = [list_data_types].
Proof.
  rewrite on_start_performs, on_stop_performs, log_status_run.
  split; [|split].
  - apply Forall_forall. intros c Hc. apply perform_calls in Hc.
    rewrite calls_start_script in Hc. eapply subscriptions_kind, Hc.
  - apply Forall_forall. intros c Hc. apply perform_calls in Hc.
    rewrite calls_stop_script in Hc. eapply unsubscriptions_kind, Hc.
  - apply calls_report.
Qed.

(** X11.  On a host that checks the client id and refuses no other
    subscription or unsubscription, [on_stop], called after [on_start] and
    any feed, returns normally exactly when the actor has no instrument.
    Then its calls are the unsubscriptions from the bars, one for each bar
    subscription of [on_start] and in the same order.  With an instrument in
    the roster it ends at its third call, the order-book unsubscription for
    the first instrument, before any bar is unsubscribed. *)
Theorem on_stop_completes_only_without_instruments host ds h0 h1 h2 a :
  checks_client_id host ->
  never_raises host is_subscribe ->
  never_raises host is_fitting_unsubscribe ->
  let start := on_start host h0 a in
  let a' := actor_of (feed ds host h1 (actor_of start)) in
  let stop := on_stop host h2 a' in
  outcome_of start = Returned tt /\
  (outcome_of stop = Returned tt <-> instrument_ids a = []) /\
  (instrument_ids a = [] ->
   calls (effects_of start) = map subscribe_bars (bar_types a) /\
   calls (effects_of stop) = map unsubscribe_bars (bar_types a)) /\
  (forall i rest,
     instrument_ids a = i :: rest ->
     calls (effects_of stop)
     = [ unsubscribe_quote_ticks i; unsubscribe_trade_ticks i;
         unsubscribe_order_book_deltas i (book_type a) ]).
Proof.
  intros Hchecks Hsub Hunsub. cbv zeta.
  assert (Hstart : forall h, perform (start_script a) host h a
                             = (Returned tt, a, start_script a)).
  { intros h. apply perform_quiet. intros h' c Hc. apply Hsub.
    rewrite calls_start_script in Hc. eapply subscriptions_kind, Hc. }
  rewrite on_start_performs, Hstart.
  unfold outcome_of, actor_of, effects_of. cbn [fst snd].
  destruct (feed_run host ds h1 a) as (Ha' & _ & _).
  unfold actor_of in Ha'. rewrite Ha'.
  destruct (fed_keeps_roster ds a) as (_ & _ & Hbt & _ & Hbs & Hi).
  split; [reflexivity|].
  destruct (instrument_ids a) as [|i rest] eqn:Hids.
  - destruct (on_stop_without_instruments host h2 (fed ds a) Hi Hunsub)
      as (Hrun & Hcalls).
    rewrite Hrun. cbn [fst snd]. split; [split; reflexivity|]. split.
    + intros _. split.
      * rewrite calls_start_script. unfold subscriptions. rewrite Hids.
        reflexivity.
      * rewrite Hcalls, Hbs. reflexivity.
    + intros i rest H. discriminate H.
  - destruct (raises host
                (h2 ++ [ Log INFO NORMAL MsgStopping;
                         Called (unsubscribe_quote_ticks i);
                         Called (unsubscribe_trade_ticks i) ])
                (unsubscribe_order_book_deltas i (book_type (fed ds a))))
      as [e|] eqn:Hb;
      [|exfalso;
        exact (Hchecks _
                 (unsubscribe_order_book_deltas i (book_type (fed ds a)))
                 eq_refl Hb)].
    rewrite (on_stop_first_instrument host h2 (fed ds a) i rest e Hi
               (Hunsub _ (unsubscribe_quote_ticks i) eq_refl)
               (Hunsub _ (unsubscribe_trade_ticks i) eq_refl) Hb).
    cbn [fst snd]. split; [split; intros H; discriminate H|]. split.
    + intros H. discriminate H.
    + intros i' rest' H. injection H as <- <-. rewrite Hbt. reflexivity.
Qed.

(** Two instances on the host that checks the client id, two events in
    between: the actor without instruments is stopped, the actor with two
    instruments is not. *)
Lemma on_stop_completes_only_without_instruments_witness :
  checks_client_id type_checking /\
  never_raises type_checking is_subscribe /\
  never_raises type_checking is_fitting_unsubscribe /\
  outcome_of
    (on_stop type_checking []
       (actor_of
          (feed [DQuote ADA_quote; DBar LTC_bar] type_checking []
             (actor_of (on_start type_checking [] bars_only_actor)))))
  = Returned tt /\
  calls
    (effects_of
       (on_stop type_checking []
          (actor_of
             (feed [DQuote ADA_quote; DBar LTC_bar] type_checking []
                (actor_of (on_start type_checking [] bars_only_actor))))))
  = [unsubscribe_bars ADA_1m] /\
  outcome_of
    (on_stop type_checking []
       (actor_of
          (feed [DQuote ADA_quote; DBar LTC_bar] type_checking []
             (actor_of (on_start type_checking [] example_actor)))))
  <> Returned tt.
Proof.
  assert (Hchecks : checks_client_id type_checking).
  { intros h c Hc. cbn. rewrite Hc. discriminate. }
  assert (Hsub : never_raises type_checking is_subscribe).
  { intros h c Hc. destruct c; try discriminate Hc; reflexivity. }
  assert (Hunsub : never_raises type_checking is_fitting_unsubscribe).
  { intros h c Hc. destruct c; try discriminate Hc; reflexivity. }
  split; [exact Hchecks|]. split; [exact Hsub|]. split; [exact Hunsub|].
  destruct (on_stop_completes_only_without_instruments type_checking
              [DQuote ADA_quote; DBar LTC_bar] [] [] [] bars_only_actor
              Hchecks Hsub Hunsub) as (_ & Hiff & Hbars & _).
  destruct (on_stop_completes_only_without_instruments type_checking
              [DQuote ADA_quote; DBar LTC_bar] [] [] [] example_actor
              Hchecks Hsub Hunsub) as (_ & Hiff' & _).
  split; [apply Hiff; reflexivity|]. split.
  - destruct (Hbars eq_refl) as (_ & Hc). rewrite Hc. reflexivity.
  - intros H. apply Hiff' in H. discriminate H.
Defined.

(** An instance: the example configuration, a quote, two bars of the
    configured type and one bar of another type. *)
Lemma report_after_feed_witness :
  outcome_of (__init__ calm [] (new_actor example_config)) = Returned tt /\
  In (MsgStatusBars "ADAUSDT-PERP.BINANCE-1-MINUTE-LAST-EXTERNAL" 2)
    (messages
       (effects_of
          (_log_status calm []
             (actor_of
                (feed [DBar ADA_bar; DQuote ADA_quote; DBar LTC_bar;
                       DBar ADA_bar] calm []
                   (actor_of
                      (__init__ calm [] (new_actor example_config)))))))).
Proof.
  split; [reflexivity|].
  destruct (report_after_feed calm example_config []
              [DBar ADA_bar; DQuote ADA_quote; DBar LTC_bar; DBar ADA_bar]
              [] [] eq_refl) as (_ & _ & Hbars & _).
  apply Hbars. split; [left; left; reflexivity | reflexivity].
Defined.

(** ** What is logged as an error *)

Lemma error_messages_app es1 es2 :
  error_messages (es1 ++ es2) = error_messages es1 ++ error_messages es2.
Proof. apply flat_map_app. Qed.

Lemma error_messages_none es :
  (forall e, In e es -> match e with Log ERROR _ _ => False | _ => True end) ->
  error_messages es = [].
Proof.
  induction es as [|e es IH]; intros H; [reflexivity|].
  unfold error_messages. cbn [flat_map]. fold (error_messages es).
  rewrite IH by (intros e' He'; apply H; right; exact He').
  specialize (H e (or_introl eq_refl)).
  destruct e as [[|] c m|c]; [reflexivity | destruct H | reflexivity].
Qed.

(** Only effects of the script are emitted. *)
Lemma perform_effects host es : forall h a e,
  In e (effects_of (perform es host h a)) -> In e es.
Proof.
  induction es as [|x es IH]; intros h a e; [intros []|].
  destruct x as [l k m|c]; cbn [perform]; unfold bind, emit, call.
  - specialize (IH (h ++ [Log l k m]) a e).
    destruct (perform es host _ a) as [[o a2] es2].
    unfold effects_of in *. cbn in *. intros [<-|H]; auto.
  - destruct (raises host h c).
    + cbn. intros [<-|[]]. left. reflexivity.
    + specialize (IH (h ++ [Called c]) a e).
      destruct (perform es host _ a) as [[o a2] es2].
      unfold effects_of in *. cbn in *. intros [<-|H]; auto.
Qed.

Lemma start_script_no_error a e :
  In e (start_script a) ->
  match e with Log ERROR _ _ => False | _ => True end.
Proof.
  unfold start_script. intros [<-|H]; [exact I|].
  apply in_app_or in H. destruct H as [H|H]; apply in_flat_map in H;
    destruct H as (x & _ & H); cbn in H;
    repeat (destruct H as [<-|H]; [exact I|]); destruct H.
Qed.

Lemma stop_script_no_error a e :
  In e (stop_script a) ->
  match e with Log ERROR _ _ => False | _ => True end.
Proof.
  unfold stop_script. intros [<-|H]; [exact I|].
  apply in_app_or in H. destruct H as [H|H].
  - apply in_flat_map in H. destruct H as (x & _ & H). cbn in H.
    repeat (destruct H as [<-|H]; [exact I|]). destruct H.
  - apply in_app_or in H. destruct H as [H|H].
    + apply in_flat_map in H. destruct H as (x & _ & H). cbn in H.
      repeat (destruct H as [<-|H]; [exact I|]). destruct H.
    + cbn in H. repeat (destruct H as [<-|H]; [exact I|]). destruct H.
Qed.

Lemma fed_effects_no_error ds : forall a,
  error_messages (fed_effects ds a) = [].
Proof.
  induction ds as [|d ds IH]; intros a; [reflexivity|].
  cbn [fed_effects]. rewrite !error_messages_app, IH.
  destruct d; cbn [announced]; split_sample; reflexivity.
Qed.

(** X16.  Whatever the host does, [on_start], [on_stop] and the callbacks
    log nothing at error level: a refused subscription, a refused
    unsubscription and a failed write leave no error record, and the
    [except] clause of [on_stop] is never entered.  The report logs an error
    exactly when the inventory query raises, and then that one. *)
Theorem errors_logged_only_by_report host ds h a :
  error_messages (effects_of (on_start host h a)) = [] /\
  error_messages (effects_of (on_stop host h a)) = [] /\
  error_messages (effects_of (feed ds host h a)) = [] /\
  error_messages (effects_of (_log_status host h a))
  = match inventory host (query_moment host h a) with
    | inl e => [MsgCatalogError e]
    | inr _ => []
    end.
Proof.
  rewrite on_start_performs, on_stop_performs, log_status_run.
  destruct (feed_run host ds h a) as (_ & -> & _).
  split; [|split; [|split]].
  - apply error_messages_none. intros e He.
    apply perform_effects in He. eapply start_script_no_error, He.
  - apply error_messages_none. intros e He.
    apply perform_effects in He. eapply stop_script_no_error, He.
  - apply fed_effects_no_error.
  - unfold effects_of, report, counter_lines. cbn [snd app].
    change (error_messages (Log INFO ?c1 ?x :: Log INFO ?c2 ?y
                            :: Log INFO ?c3 ?z :: ?l))
      with (error_messages l).
    rewrite error_messages_app.
    replace (error_messages (map _ (Dict.items (bar_counts a))))
      with (@nil Message)
      by (induction (Dict.items (bar_counts a)) as [|kv l IH];
          [reflexivity | exact IH]).
    change (error_messages (Called ?c :: ?l)) with (error_messages l).
    cbn [app].
    destruct (inventory host (query_moment host h a)) as [e|dts];
      [reflexivity|].
    cbn [inventory_lines].
    change (error_messages (Log INFO ?c ?x :: ?l)) with (error_messages l).
    induction dts as [|d dts IH]; [reflexivity | exact IH].
Qed.

(** * Properties of the launcher *)

Lemma string_length_append (a b : string) :
  String.length (a ++ b) = (String.length a + String.length b)%nat.
Proof.
  induction a as [|c a IH]; cbn; [reflexivity | rewrite IH; reflexivity].
Qed.

Lemma main_bar_types_injective (a b : string) suffix :
  (a ++ suffix = b ++ suffix)%string -> a = b.
Proof.
  revert b. induction a as [|c a IH]; intros b H.
  - destruct b as [|c' b]; [reflexivity|]. exfalso.
    apply (f_equal String.length) in H. cbn in H.
    rewrite string_length_append in H. lia.
  - destruct b as [|c' b].
    + exfalso. apply (f_equal String.length) in H. cbn in H.
      rewrite string_length_append in H. lia.
    + cbn in H. injection H as -> H. f_equal. apply IH, H.
Qed.

(** X12.  The bar types the launcher derives are one per instrument, in the
    order of the instruments, each the instrument identifier followed by
    [-1-MINUTE-LAST-EXTERNAL]; distinct instruments give distinct bar
    types. *)
Theorem bar_types_one_per_instrument ids :
  List.length (Main.bar_types_for ids) = List.length ids /\
  (forall n i,
     nth_error ids n = Some i ->
     nth_error (Main.bar_types_for ids) n
     = Some (i ++ "-1-MINUTE-LAST-EXTERNAL")%string) /\
  (NoDup ids -> NoDup (Main.bar_types_for ids)).
Proof.
  unfold Main.bar_types_for. split; [apply length_map|]. split.
  - intros n i H. rewrite nth_error_map, H. reflexivity.
  - intros Hnd. induction Hnd as [|i ids Hout Hnd IH]; [constructor|].
    cbn [map]. constructor; [|exact IH].
    intros Hin. apply in_map_iff in Hin. destruct Hin as (j & Hj & Hin).
    apply main_bar_types_injective in Hj. subst j. contradiction.
Qed.

(** X13.  When a credential is not set, or is set to the empty string, the
    launcher raises [ValueError] right after reading the environment: no
    configuration or node is built and nothing is started. *)
Theorem main_requires_credentials env h rounds :
  Main.fails env h Main.load_dotenv = None ->
  (let h1 := h ++ [Main.Did Main.load_dotenv] in
   Main.truthy (Main.getenv env h1 "BINANCE_FUTURES_API_KEY") = false \/
   Main.truthy (Main.getenv env h1 "BINANCE_FUTURES_API_SECRET") = false) ->
  Main.main rounds env h
  = (Main.Raised Main.missing_credentials, [Main.Did Main.load_dotenv]).
Proof.
  intros Hload Hmissing. cbv zeta in Hmissing.
  unfold Main.main, Main.bind at 1, Main.step at 1. rewrite Hload.
  unfold Main.bind at 1, Main.os_getenv at 1.
  unfold Main.bind at 1, Main.os_getenv at 1.
  rewrite !app_nil_r.
  destruct Hmissing as [-> | ->]; cbn [negb orb];
    rewrite ?orb_true_r; reflexivity.
Qed.

(** An instance: the secret is the empty string. *)
Lemma main_requires_credentials_witness :
  Main.fails Main.empty_secret [] Main.load_dotenv = None /\
  Main.truthy
    (Main.getenv Main.empty_secret ([] ++ [Main.Did Main.load_dotenv])
       "BINANCE_FUTURES_API_SECRET") = false /\
  Main.result_of (Main.main 3 Main.empty_secret [])
  = Main.Raised Main.missing_credentials.
Proof.
  split; [reflexivity|]. split; [reflexivity|].
  rewrite (main_requires_credentials Main.empty_secret [] 3 eq_refl
             (or_intror eq_refl)).
  reflexivity.
Defined.

(** ** The life of the launcher *)

Lemma step_run env h s :
  Main.step s env h
  = match Main.fails env h s with
    | None => (Main.Returned tt, [Main.Did s])
    | Some e => (Main.Raised e, [Main.Did s])
    end.
Proof. reflexivity. Qed.

Lemma bind_step {B} env h s (k : unit -> Main.N B) :
  Main.bind (Main.step s) k env h
  = match Main.fails env h s with
    | Some e => (Main.Raised e, [Main.Did s])
    | None =>
        let '(o, es) := k tt env (h ++ [Main.Did s]) in (o, Main.Did s :: es)
    end.
Proof.
  unfold Main.bind. rewrite step_run.
  destruct (Main.fails env h s); reflexivity.
Qed.

Lemma forever_sleeps env rounds : forall h,
  let r := Main.forever rounds (Main.step (Main.sleep 60)) env h in
  r = (Main.Running, repeat (Main.Did (Main.sleep 60)) rounds) \/
  exists e n,
    (n < rounds)%nat /\
    r = (Main.Raised e, repeat (Main.Did (Main.sleep 60)) (S n)) /\
    Main.fails env (h ++ repeat (Main.Did (Main.sleep 60)) n) (Main.sleep 60)
    = Some e.
Proof.
  induction rounds as [|rounds IH]; intros h; cbv zeta.
  - left. reflexivity.
  - cbn [Main.forever]. unfold Main.bind. rewrite step_run.
    destruct (Main.fails env h (Main.sleep 60)) as [e|] eqn:E.
    + right. exists e, 0%nat. cbn [repeat]. rewrite app_nil_r.
      split; [lia|]. split; [reflexivity | exact E].
    + cbv beta iota.
      destruct (IH (h ++ [Main.Did (Main.sleep 60)])) as [Hrun|Hend].
      * left. cbv zeta in Hrun. rewrite Hrun. reflexivity.
      * right. destruct Hend as (e & n & Hn & Hr & Hf).
        cbv zeta in Hr. rewrite Hr. exists e, (S n).
        split; [lia|]. split; [reflexivity|].
        rewrite <- app_assoc in Hf. exact Hf.
Qed.

Lemma main_after_setup env h rounds :
  Main.credentials_set env ->
  (forall h' s, In s Main.setup -> Main.fails env h' s = None) ->
  Main.main rounds env h
  = let '(o, es) :=
      Main.try_except_finally
        (Main.bind (Main.step Main.run_async)
           (fun _ =>
              Main.bind (Main.log INFO Main.TxtRunsForever)
                (fun _ =>
                   Main.forever rounds (Main.step (Main.sleep 60)))))
        (Main.log INFO Main.TxtCancelled)
        (fun e => Main.log ERROR (Main.TxtFailed (Main.exn_str e)))
        (Main.bind (Main.step Main.stop_async)
           (fun _ =>
              Main.bind (Main.step (Main.sleep 1))
                (fun _ =>
                   Main.bind (Main.step Main.dispose)
                     (fun _ => Main.log INFO Main.TxtReleased))))
        env (h ++ map Main.Did Main.setup) in
    (o, map Main.Did Main.setup ++ es).
Proof.
  intros Hcred Hsetup. unfold Main.main.
  unfold Main.bind at 1. rewrite step_run, Hsetup by (cbn; auto 10).
  unfold Main.bind at 1, Main.os_getenv at 1.
  unfold Main.bind at 1, Main.os_getenv at 1.
  rewrite (proj1 (Hcred _)), (proj2 (Hcred _)). cbn [negb orb].
  do 7 (unfold Main.bind at 1; rewrite step_run, Hsetup by (cbn; auto 10)).
  cbn [Main.duration_seconds].
  rewrite ?app_nil_r, <- ?app_assoc. cbn [app map Main.setup].
  destruct (Main.try_except_finally _ _ _ _ env _) as [o es]. reflexivity.
Qed.

Lemma main_body env h rounds :
  let r :=
    Main.bind (Main.step Main.run_async)
      (fun _ =>
         Main.bind (Main.log INFO Main.TxtRunsForever)
           (fun _ => Main.forever rounds (Main.step (Main.sleep 60))))
      env h in
  r = (Main.Running,
       Main.Did Main.run_async :: Main.Logged INFO Main.TxtRunsForever
       :: repeat (Main.Did (Main.sleep 60)) rounds) \/
  exists e before,
    r = (Main.Raised e, before) /\
    (before = [Main.Did Main.run_async] \/
     exists n,
       (n < rounds)%nat /\
       before
       = Main.Did Main.run_async :: Main.Logged INFO Main.TxtRunsForever
         :: repeat (Main.Did (Main.sleep 60)) (S n)).
Proof.
  cbv zeta. rewrite bind_step.
  destruct (Main.fails env h Main.run_async) as [e|].
  - right. exists e, [Main.Did Main.run_async]. split; [reflexivity|].
    left. reflexivity.
  - unfold Main.bind, Main.log.
    destruct (forever_sleeps env rounds
                ((h ++ [Main.Did Main.run_async])
                 ++ [Main.Logged INFO Main.TxtRunsForever]))
      as [Hrun|(e & n & Hn & Hr & _)]; cbv zeta in *.
    + left. rewrite Hrun. reflexivity.
    + right. rewrite Hr. eexists e, _. split; [reflexivity|].
      right. exists n. split; [exact Hn | reflexivity].
Qed.

Lemma main_cleanup env h :
  (forall h' s, In s Main.cleanup_steps -> Main.fails env h' s = None) ->
  Main.bind (Main.step Main.stop_async)
    (fun _ =>
       Main.bind (Main.step (Main.sleep 1))
         (fun _ =>
            Main.bind (Main.step Main.dispose)
              (fun _ => Main.log INFO Main.TxtReleased)))
    env h
  = (Main.Returned tt, Main.cleanup_events).
Proof.
  intros Hclean.
  do 3 (rewrite bind_step, Hclean by (cbn; auto)).
  reflexivity.
Qed.

(** X14.  With the credentials set and nothing raising, the launcher never
    ends by itself: however many minutes of the loop are looked at, it is
    still running, having built and started the node and slept that many
    times, and it has neither stopped nor disposed of the node. *)
Theorem main_runs_until_interrupted env h rounds :
  Main.credentials_set env ->
  (forall h' s, Main.fails env h' s = None) ->
  Main.main rounds env h
  = (Main.Running,
     map Main.Did Main.setup
     ++ Main.Did Main.run_async :: Main.Logged INFO Main.TxtRunsForever
        :: repeat (Main.Did (Main.sleep 60)) rounds).
Proof.
  intros Hcred Hquiet.
  rewrite (main_after_setup env h rounds Hcred (fun h' s _ => Hquiet h' s)).
  unfold Main.try_except_finally.
  destruct (main_body env (h ++ map Main.Did Main.setup) rounds)
    as [Hrun|(e & before & Hr & Hb)]; cbv zeta in *.
  - rewrite Hrun. reflexivity.
  - exfalso. revert Hr. rewrite bind_step, Hquiet.
    unfold Main.bind, Main.log.
    destruct (forever_sleeps env rounds
                ((h ++ map Main.Did Main.setup ++ [Main.Did Main.run_async])
                 ++ [Main.Logged INFO Main.TxtRunsForever]))
      as [Hrun|(e' & n & _ & _ & Hf)]; cbv zeta in *.
    + rewrite <- !app_assoc in *. rewrite Hrun. discriminate.
    + rewrite Hquiet in Hf. discriminate.
Qed.

(** An instance: both credentials set, nothing raises. *)
Lemma main_runs_until_interrupted_witness :
  Main.credentials_set
    {| Main.getenv := fun _ _ => Some "set";
       Main.fails := fun _ _ => None |} /\
  Main.result_of
    (Main.main 1000
       {| Main.getenv := fun _ _ => Some "set";
          Main.fails := fun _ _ => None |} [])
  = Main.Running.
Proof.
  split; [intros h; split; reflexivity|].
  rewrite (main_runs_until_interrupted
             {| Main.getenv := fun _ _ => Some "set";
                Main.fails := fun _ _ => None |} [] 1000
             (fun h => conj eq_refl eq_refl) (fun _ _ => eq_refl)).
  reflexivity.
Defined.

(** The loop sleeps through the minutes the environment lets pass and
    raises what the environment raises at the next one. *)
Lemma forever_interrupted env e slept : forall rounds h,
  (slept < rounds)%nat ->
  (forall k, (k < slept)%nat ->
             Main.fails env (h ++ repeat (Main.Did (Main.sleep 60)) k)
               (Main.sleep 60) = None) ->
  Main.fails env (h ++ repeat (Main.Did (Main.sleep 60)) slept)
    (Main.sleep 60) = Some e ->
  Main.forever rounds (Main.step (Main.sleep 60)) env h
  = (Main.Raised e, repeat (Main.Did (Main.sleep 60)) (S slept)).
Proof.
  induction slept as [|slept IH]; intros rounds h Hlt Hquiet Hraise;
    (destruct rounds as [|rounds]; [lia|]);
    cbn [Main.forever]; rewrite bind_step.
  - cbn [repeat] in Hraise. rewrite app_nil_r in Hraise. rewrite Hraise.
    reflexivity.
  - pose proof (Hquiet 0%nat ltac:(lia)) as H0. cbn [repeat] in H0.
    rewrite app_nil_r in H0. rewrite H0.
    rewrite (IH rounds (h ++ [Main.Did (Main.sleep 60)])).
    + reflexivity.
    + lia.
    + intros k Hk. rewrite <- app_assoc. apply (Hquiet (S k)). lia.
    + rewrite <- app_assoc. exact Hraise.
Qed.

(** The [try] body raises the exception that interrupts it, having emitted
    the events up to that step. *)
Lemma main_body_interrupted env h rounds m e :
  Main.within rounds m ->
  Main.interrupted env h m e ->
  Main.bind (Main.step Main.run_async)
    (fun _ =>
       Main.bind (Main.log INFO Main.TxtRunsForever)
         (fun _ => Main.forever rounds (Main.step (Main.sleep 60))))
    env h
  = (Main.Raised e, Main.until m).
Proof.
  destruct m as [|slept]; cbn [Main.within Main.interrupted Main.until].
  - intros _ Hraise. rewrite bind_step, Hraise. reflexivity.
  - intros Hlt (Hrun & Hquiet & Hraise). rewrite bind_step, Hrun.
    unfold Main.bind, Main.log.
    rewrite (forever_interrupted env e slept rounds
               ((h ++ [Main.Did Main.run_async])
                ++ [Main.Logged INFO Main.TxtRunsForever]) Hlt).
    + reflexivity.
    + intros k Hk. rewrite <- !app_assoc. exact (Hquiet k Hk).
    + rewrite <- !app_assoc. exact Hraise.
Qed.

(** X15.  With the credentials set, a setup that succeeds and cleanup steps
    that do not raise: when [run_async] or a minute of the loop raises [e],
    nothing having raised before, the launcher handles [e] by its class.
    For [CancelledError] it logs the cancellation, for any [Exception] it
    logs [e] as an error, and in both cases it returns normally; any other
    exception, [KeyboardInterrupt] included, is logged by no clause and is
    raised again by [main].  In every case the node is stopped, a second is
    waited, the node is disposed of and the release is logged, in this order
    and once, after the handling.  The script around [main] absorbs a
    [KeyboardInterrupt] with a last log line and nothing else. *)
Theorem main_cleans_up_when_interrupted env h rounds m e :
  Main.credentials_set env ->
  (forall h' s, In s Main.setup -> Main.fails env h' s = None) ->
  (forall h' s, In s Main.cleanup_steps -> Main.fails env h' s = None) ->
  Main.within rounds m ->
  Main.interrupted env (h ++ map Main.Did Main.setup) m e ->
  let before := map Main.Did Main.setup ++ Main.until m in
  Main.main rounds env h
  = match Main.exn_class e with
    | Main.CancelledError =>
        (Main.Returned tt,
         before ++ Main.Logged INFO Main.TxtCancelled :: Main.cleanup_events)
    | Main.ValueError | Main.OtherException =>
        (Main.Returned tt,
         before ++ Main.Logged ERROR (Main.TxtFailed (Main.exn_str e))
                   :: Main.cleanup_events)
    | Main.KeyboardInterrupt | Main.SystemExit =>
        (Main.Raised e, before ++ Main.cleanup_events)
    end /\
  Main.script rounds env h
  = match Main.exn_class e with
    | Main.KeyboardInterrupt =>
        (Main.Returned tt,
         before ++ Main.cleanup_events
         ++ [Main.Logged INFO Main.TxtInterrupted])
    | _ => Main.main rounds env h
    end.
Proof.
  intros Hcred Hsetup Hclean Hin Hraise. cbv zeta.
  assert (Hmain :
            Main.main rounds env h
            = match Main.exn_class e with
              | Main.CancelledError =>
                  (Main.Returned tt,
                   (map Main.Did Main.setup ++ Main.until m)
                   ++ Main.Logged INFO Main.TxtCancelled
                      :: Main.cleanup_events)
              | Main.ValueError | Main.OtherException =>
                  (Main.Returned tt,
                   (map Main.Did Main.setup ++ Main.until m)
                   ++ Main.Logged ERROR (Main.TxtFailed (Main.exn_str e))
                      :: Main.cleanup_events)
              | Main.KeyboardInterrupt | Main.SystemExit =>
                  (Main.Raised e,
                   (map Main.Did Main.setup ++ Main.until m)
                   ++ Main.cleanup_events)
              end).
  { rewrite (main_after_setup env h rounds Hcred Hsetup).
    unfold Main.try_except_finally.
    rewrite (main_body_interrupted env _ rounds m e Hin Hraise).
    unfold Main.log. destruct e as [c msg].
    cbn [Main.exn_class Main.exn_str].
    destruct c; cbn [Main.is_Exception];
      rewrite main_cleanup by assumption;
      rewrite ?app_nil_r, <- ?app_assoc; reflexivity. }
  split; [exact Hmain|].
  unfold Main.script. rewrite Hmain.
  destruct (Main.exn_class e) eqn:Hclass; try reflexivity.
  - cbn [Main.exn_class]. rewrite Hclass, <- app_assoc. reflexivity.
  - cbn [Main.exn_class]. rewrite Hclass. reflexivity.
Qed.

(** Two instances, the third minute of the loop being interrupted: by a
    cancellation, after which [main] returns, and by Ctrl+C, which [main]
    raises again and the script absorbs. *)
Lemma main_cleans_up_when_interrupted_witness :
  Main.credentials_set
    (Main.interrupted_by
       {| Main.exn_class := Main.CancelledError; Main.exn_str := "" |}) /\
  Main.interrupted
    (Main.interrupted_by
       {| Main.exn_class := Main.CancelledError; Main.exn_str := "" |})
    ([] ++ map Main.Did Main.setup) (Main.AtMinute 2)
    {| Main.exn_class := Main.CancelledError; Main.exn_str := "" |} /\
  Main.main 5
    (Main.interrupted_by
       {| Main.exn_class := Main.CancelledError; Main.exn_str := "" |}) []
  = (Main.Returned tt,
     map Main.Did Main.setup
     ++ [ Main.Did Main.run_async; Main.Logged INFO Main.TxtRunsForever;
          Main.Did (Main.sleep 60); Main.Did (Main.sleep 60);
          Main.Did (Main.sleep 60); Main.Logged INFO Main.TxtCancelled;
          Main.Did Main.stop_async; Main.Did (Main.sleep 1);
          Main.Did Main.dispose; Main.Logged INFO Main.TxtReleased ]) /\
  Main.result_of
    (Main.main 5
       (Main.interrupted_by
          {| Main.exn_class := Main.KeyboardInterrupt;
             Main.exn_str := "" |}) [])
  = Main.Raised
      {| Main.exn_class := Main.KeyboardInterrupt; Main.exn_str := "" |} /\
  Main.result_of
    (Main.script 5
       (Main.interrupted_by
          {| Main.exn_class := Main.KeyboardInterrupt;
             Main.exn_str := "" |}) [])
  = Main.Returned tt.
Proof.
  assert (Hquiet : forall x (steps : list Main.Step),
             ~ In (Main.sleep 60) steps ->
             forall h' s, In s steps ->
                          Main.fails (Main.interrupted_by x) h' s = None).
  { intros x steps Hno h' s Hs. cbn.
    destruct s as [| | | | | | | | |seconds| |]; try reflexivity.
    destruct (Z.eq_dec seconds 60) as [->|Hne]; [contradiction|].
    destruct seconds as [|p|p]; try reflexivity.
    repeat (destruct p as [p|p|]; try reflexivity).
    contradiction. }
  assert (Hsetup : ~ In (Main.sleep 60) Main.setup).
  { cbn. intros H. repeat (destruct H as [H|H]; [discriminate H|]).
    exact H. }
  assert (Hclean : ~ In (Main.sleep 60) Main.cleanup_steps).
  { cbn. intros H. repeat (destruct H as [H|H]; [discriminate H|]).
    exact H. }
  assert (Hat : forall x,
             Main.interrupted (Main.interrupted_by x)
               ([] ++ map Main.Did Main.setup) (Main.AtMinute 2) x).
  { intros x. split; [reflexivity|]. split; [|reflexivity].
    intros k Hk. destruct k as [|[|k]]; [reflexivity|reflexivity|lia]. }
  split; [intros h; split; reflexivity|]. split; [apply Hat|].
  destruct (main_cleans_up_when_interrupted
              (Main.interrupted_by
                 {| Main.exn_class := Main.CancelledError;
                    Main.exn_str := "" |}) [] 5 (Main.AtMinute 2)
              {| Main.exn_class := Main.CancelledError; Main.exn_str := "" |}
              (fun h => conj eq_refl eq_refl)
              (Hquiet _ _ Hsetup) (Hquiet _ _ Hclean)
              ltac:(cbn; lia) (Hat _)) as (Hmain & _).
  destruct (main_cleans_up_when_interrupted
              (Main.interrupted_by
                 {| Main.exn_class := Main.KeyboardInterrupt;
                    Main.exn_str := "" |}) [] 5 (Main.AtMinute 2)
              {| Main.exn_class := Main.KeyboardInterrupt;
                 Main.exn_str := "" |}
              (fun h => conj eq_refl eq_refl)
              (Hquiet _ _ Hsetup) (Hquiet _ _ Hclean)
              ltac:(cbn; lia) (Hat _)) as (Hmain' & Hscript).
  split; [rewrite Hmain; reflexivity|].
  split; [rewrite Hmain'; reflexivity | rewrite Hscript; reflexivity].
Defined.
